(** * Backend completeness tables: a model of
    [utils/generate_backend_completeness.py]

    The script reflects over the classes of the unifying API and of each
    backend package, reconciles the method names into a presence matrix with
    a pivot, and writes one markdown document per matrix.

    The model follows the script function by function.  Python objects are
    represented by what reflection can see of them, the data-frame calls by
    the documented behaviour of each call on frames of string columns, and
    file and template operations by a state-and-exception monad. *)

From Stdlib Require Import Ascii.
From stdpp Require Import base option list sorting strings gmap.

(** ** Python strings

    Strings are byte strings; [String.le] is the lexicographic order on
    character codes, which is the order Python uses to compare [str] values
    and the order in which a string column is sorted. *)

Module Str.

(** [s.startswith(p)] *)
Definition startswith (s p : string) : bool := String.prefix p s.

(** [s.endswith(suf)]: [s] is [suf], or its tail ends with [suf]. *)
Fixpoint endswith (s suf : string) : bool :=
  if String.eqb s suf then true
  else match s with
       | EmptyString => false
       | String _ s' => endswith s' suf
       end.

Definition is_upper (c : ascii) : bool :=
  let n := Ascii.nat_of_ascii c in (65 <=? n)%nat && (n <=? 90)%nat.
Definition is_lower (c : ascii) : bool :=
  let n := Ascii.nat_of_ascii c in (97 <=? n)%nat && (n <=? 122)%nat.

Definition lower_char (c : ascii) : ascii :=
  if is_upper c then Ascii.ascii_of_nat (Ascii.nat_of_ascii c + 32) else c.
Definition upper_char (c : ascii) : ascii :=
  if is_lower c then Ascii.ascii_of_nat (Ascii.nat_of_ascii c - 32) else c.

Fixpoint map_chars (f : ascii → ascii) (s : string) : string :=
  match s with
  | EmptyString => EmptyString
  | String c s' => String (f c) (map_chars f s')
  end.

(** [s.lower()], on the ASCII letters. *)
Definition lower (s : string) : string := map_chars lower_char s.

(** [s.capitalize()]: first character upper-cased, the rest lower-cased. *)
Definition capitalize (s : string) : string :=
  match s with
  | EmptyString => EmptyString
  | String c s' => String (upper_char c) (lower s')
  end.

(** [s.replace(a, b)] for one-character [a] and [b]. *)
Definition replace (a b : ascii) (s : string) : string :=
  map_chars (λ c, if Ascii.eqb c a then b else c) s.

End Str.

(** ** Exceptions *)

Inductive exn :=
  | ModuleNotFoundError
  | ValueError
  | SchemaError
  | ColumnNotFoundError
  | DuplicateError
  | FileNotFoundError
  | TemplateError.

Global Instance exn_eq_dec : EqDecision exn.
Proof. solve_decision. Defined.

Inductive result (A : Type) :=
  | Ok (a : A)
  | Raise (e : exn).
Global Arguments Ok {A} a.
Global Arguments Raise {A} e.

Definition rbind {A B} (r : result A) (k : A → result B) : result B :=
  match r with
  | Ok a => k a
  | Raise e => Raise e
  end.

Global Instance result_ret : MRet result := λ A a, Ok a.
Global Instance result_bind : MBind result := λ A B k r, rbind r k.

(** [with suppress(e): body], for a block whose variables still hold
    [fallback] at the point where [e] can be raised: execution resumes after
    the block. *)
Definition suppress {A} (e : exn) (fallback : A) (body : result A) : result A :=
  match body with
  | Raise e' => if decide (e' = e) then Ok fallback else Raise e'
  | r => r
  end.

(** ** What reflection sees *)

(** Modelled from the spec: the sentinel type [not_implemented] of
    [narwhals._utils], which the script imports and which is not part of it;
    the spec describes it as the marker type of a method that is
    intentionally absent from a concrete type.  A value found as a class
    attribute is an instance of it, or anything else. *)
Inductive member :=
  | not_implemented
  | implemented.

Global Instance member_eq_dec : EqDecision member.
Proof. solve_decision. Defined.

Definition isinstance_not_implemented (m : member) : bool :=
  match m with not_implemented => true | implemented => false end.

(** An object bound in a module: [inspect.isclass], and for a class its
    [__name__], its [__module__] and the attributes [getattr] finds for the
    names of [dir]. *)
Record object := Object {
  isclass : bool;
  obj_name : string;
  obj_module : string;
  obj_dir : gmap string member;
}.

(** A module is its namespace. *)
Record py_module := PyModule { mod_dir : gmap string object }.

(** The import system: the modules that [importlib.import_module] finds, by
    dotted name. *)
Abbreviation packages := (gmap string py_module).

Definition import_module (env : packages) (name : string) : result py_module :=
  match env !! name with
  | Some m => Ok m
  | None => Raise ModuleNotFoundError
  end.

Definition by_name {A} : relation (string * A) := λ x y, String.le x.1 y.1.

Global Instance by_name_dec {A} : RelDecision (@by_name A).
Proof. intros x y. unfold by_name. apply _. Defined.

(** [inspect.getmembers(obj, predicate)]: the (name, value) pairs whose value
    passes the predicate, sorted by name. *)
Definition getmembers {A} (ns : gmap string A) (predicate : A → bool) : list (string * A) :=
  merge_sort by_name (filter (λ kv, predicate kv.2 = true) (map_to_list ns)).

(** ** Registry *)

Inductive BackendType := LAZY | EAGER | BOTH.

Record Backend := mkBackend {
  name : string;
  module : string;
  type_ : BackendType;
}.

Global Instance BackendType_eq_dec : EqDecision BackendType.
Proof. solve_decision. Defined.

Global Instance Backend_eq_dec : EqDecision Backend.
Proof. solve_decision. Defined.

Definition MODULES : list string :=
  [ "dataframe"; "series"; "expr"; "expr_dt"; "expr_cat"; "expr_str";
    "expr_list"; "expr_name"; "expr_struct"; "series_dt"; "series_cat";
    "series_str"; "series_list"; "series_struct" ].

Definition BACKENDS : list Backend :=
  [ mkBackend "arrow" "_arrow" EAGER;
    mkBackend "dask" "_dask" LAZY;
    mkBackend "duckdb" "_duckdb" LAZY;
    mkBackend "pandas-like" "_pandas_like" EAGER;
    mkBackend "spark-like" "_spark_like" LAZY ].

Definition EXCLUDE_CLASSES : gset string := {[ "BaseFrame"; "Then"; "When" ]}.

Definition DIRECTLY_IMPLEMENTED_METHODS : list string :=
  [ "pipe"; "implementation"; "to_native" ].

Definition EXPR_STR_METHODS : list string := [ "tail"; "head" ].

(** ** Method enumerators *)

Definition get_class_methods (kls : object) : list string :=
  (filter (λ m, Str.startswith m.1 "_" = false)
          (getmembers (obj_dir kls) (λ _, true))).*1.

(** The generator is modelled by the list of the names it yields. *)
Definition iter_implemented_methods (tp : object) : list string :=
  (filter (λ m, Str.startswith m.1 "_" = false
                ∧ isinstance_not_implemented m.2 = false)
          (getmembers (obj_dir tp) (λ _, true))).*1.

(** ** Backend resolver *)

Definition class_matches (nw_class_name : string) (c : object) : bool :=
  isclass c
  && Str.endswith (obj_name c) nw_class_name
  && negb (Str.startswith (obj_name c) "Compliant")
  && negb (Str.startswith (obj_name c) "DuckDBInterchange").

Definition parse_module (env : packages) (module_name backend nw_class_name : string)
  : result (list string) :=
  let methods_ : list string := [] in
  suppress ModuleNotFoundError methods_
    (module_ ← import_module env ("narwhals." +:+ backend +:+ "." +:+ module_name);
     let class_ := getmembers (mod_dir module_) (class_matches nw_class_name) in
     match class_ with
     | [] => Ok methods_
     | c0 :: _ =>
         let methods_ :=
           methods_ ++ (iter_implemented_methods c0.2 ++ DIRECTLY_IMPLEMENTED_METHODS) in
         let methods_ :=
           if decide (module_name = "expr_str") then methods_ ++ EXPR_STR_METHODS
           else methods_ in
         Ok methods_
     end).

(** ** Data frames

    The cells of the frames of this program are strings or null.  A frame is
    its ordered column names and its rows; a row maps each column name to a
    cell, and the cell [None] is null. *)

Module pl.

Abbreviation row := (gmap string (option string)).

Record DataFrame := mkDataFrame {
  columns : list string;
  rows : list row;
}.

Global Instance DataFrame_eq_dec : EqDecision DataFrame.
Proof. solve_decision. Defined.

(** The cell of a row under a column name; null also when the row has no
    such column. *)
Definition value (r : row) (c : string) : option string := r !! c ≫= id.

(** [pl.DataFrame({"Backend": backend, "Method": methods})]: one row per
    element of the list, each paired with the scalar; no row for an empty
    list. *)
Definition from_dict (backend : string) (methods : list string) : DataFrame :=
  {| columns := ["Backend"; "Method"];
     rows := (λ m, {[ "Backend" := Some backend; "Method" := Some m ]}) <$> methods |}.

(** The data type of a column.  The frames handed to [pl.concat] are built
    from Python values, for which polars infers the type from the values: a
    column that holds no string, such as the method column built from an
    empty list, is [Null]; a column that holds one is [Utf8], the string
    type.  (In a frame without rows polars types the scalar column as a
    string column; its list column is [Null], which is what decides below.) *)
Inductive DataType := Null | Utf8.

Global Instance DataType_eq_dec : EqDecision DataType.
Proof. solve_decision. Defined.

Definition dtype (df : DataFrame) (c : string) : DataType :=
  if decide (Exists (λ r, is_Some (value r c)) (rows df)) then Utf8 else Null.

(** A frame that can be stacked under the frame [df]: it has the columns of
    [df], and each of them has the data type it has in [df] or is [Null]. *)
Definition extends (df d : DataFrame) : Prop :=
  columns d = columns df
  ∧ Forall (λ c, dtype d c = Null ∨ dtype d c = dtype df c) (columns df).

Global Instance extends_dec df d : Decision (extends df d).
Proof. unfold extends. apply _. Defined.

(** [pl.concat(items)]: vertical concatenation.  Raises [ValueError] on an
    empty list.  The first frame gives the schema and every later frame is
    stacked under it: a [Null] column is cast to the type of the first
    frame, any other difference raises [SchemaError].  So a first frame
    built from an empty list takes no frame that has rows. *)
Definition concat (items : list DataFrame) : result DataFrame :=
  match items with
  | [] => Raise ValueError
  | df :: rest =>
      if decide (Forall (extends df) rest)
      then Ok {| columns := columns df; rows := mjoin (rows <$> items) |}
      else Raise SchemaError
  end.

(** [df.with_columns(c=pl.lit(v))]: replaces the column if it exists,
    appends it otherwise. *)
Definition with_columns (c v : string) (df : DataFrame) : DataFrame :=
  {| columns := if decide (c ∈ columns df) then columns df else columns df ++ [c];
     rows := <[c := Some v]> <$> rows df |}.

(** Distinct values in order of first appearance. *)
Definition unique {A} `{EqDecision A} (l : list A) : list A :=
  reverse (remove_dups (reverse l)).

(** The name of the column a pivot makes for a value. *)
Definition label (v : option string) : string := default "null" v.

(** [df.pivot(on=on, index=[index], values=values, aggregate_function="first")]:
    one row per distinct index value and one column per distinct [on]
    value, both in order of discovery; a cell holds the first value found
    for its (index, on) pair and is null when the pair never occurs. *)
Definition pivot (on index values : string) (df : DataFrame) : result DataFrame :=
  if decide (Forall (λ c, c ∈ columns df) [on; index; values]) then
    let ons := unique ((λ r, value r on) <$> rows df) in
    let keys := unique ((λ r, value r index) <$> rows df) in
    let first k o :=
      head (filter (λ r, value r index = k ∧ value r on = o) (rows df))
        ≫= λ r, value r values in
    let names := index :: (label <$> ons) in
    if decide (NoDup names) then
      Ok {| columns := names;
            rows := (λ k, <[index := k]>
                            (list_to_map ((λ o, (label o, first k o)) <$> ons)))
                    <$> keys |}
    else Raise DuplicateError
  else Raise ColumnNotFoundError.

(** [df.filter(pl.col(c).is_not_null())] *)
Definition filter_is_not_null (c : string) (df : DataFrame) : result DataFrame :=
  if decide (c ∈ columns df) then
    Ok {| columns := columns df;
          rows := filter (λ r, is_Some (value r c)) (rows df) |}
  else Raise ColumnNotFoundError.

(** [df.drop(c)] *)
Definition drop (c : string) (df : DataFrame) : result DataFrame :=
  if decide (c ∈ columns df) then
    Ok {| columns := filter (λ c', c' ≠ c) (columns df);
          rows := delete c <$> rows df |}
  else Raise ColumnNotFoundError.

(** [df.fill_null(v)] *)
Definition fill_null (v : string) (df : DataFrame) : DataFrame :=
  {| columns := columns df;
     rows := fmap (M := gmap string) (λ o, Some (default v o)) <$> rows df |}.

(** The order of a sorted string column: nulls first. *)
Definition cell_le (a b : option string) : Prop :=
  match a, b with
  | None, _ => True
  | Some _, None => False
  | Some x, Some y => String.le x y
  end.

Global Instance cell_le_dec : RelDecision cell_le.
Proof. intros [x|] [y|]; simpl; apply _. Defined.

Definition by_column (c : string) : relation row :=
  λ r1 r2, cell_le (value r1 c) (value r2 c).

Global Instance by_column_dec c : RelDecision (by_column c).
Proof. intros r1 r2. unfold by_column. apply _. Defined.

(** [df.sort(c)] *)
Definition sort (c : string) (df : DataFrame) : result DataFrame :=
  if decide (c ∈ columns df) then
    Ok {| columns := columns df; rows := merge_sort (by_column c) (rows df) |}
  else Raise ColumnNotFoundError.

(** [df.select] of a list of column names *)
Definition select (names : list string) (df : DataFrame) : result DataFrame :=
  if decide (Forall (λ c, c ∈ columns df) names) then
    if decide (NoDup names) then
      Ok {| columns := names;
            rows := filter (λ kv, kv.1 ∈ names) <$> rows df |}
    else Raise DuplicateError
  else Raise ColumnNotFoundError.

End pl.

(** [sorted(l)] on a list of strings. *)
Definition sorted (l : list string) : list string := merge_sort String.le l.

(** ** Matrix builder

    The frame computed by [render_table_and_write_to_output] before it is
    printed: lines 107 to 122 of the script. *)
Definition presence_matrix (results : list pl.DataFrame) : result pl.DataFrame :=
  results ← pl.concat results;
  let results := pl.with_columns "supported" ":white_check_mark:" results in
  results ← pl.pivot "Backend" "Method" "supported" results;
  results ← pl.filter_is_not_null "narwhals" results;
  results ← pl.drop "narwhals" results;
  let results := pl.fill_null ":x:" results in
  results ← pl.sort "Method" results;
  let backends := filter (λ c, c ≠ "Method") (pl.columns results) ++ ["polars"] in
  let results := pl.with_columns "polars" ":white_check_mark:" results in
  pl.select ("Method" :: sorted backends) results.

(** The rows and cells of a finished matrix. *)
Definition method_names (m : pl.DataFrame) : list (option string) :=
  (λ r, pl.value r "Method") <$> pl.rows m.

(** ** Files and rendered documents

    The world of the script is the file system, a map from path to text,
    together with the trace of the documents it has rendered so far (oldest
    first).  An action either returns or raises, and leaves the world as it
    was at that point. *)

Record Document := mkDocument {
  doc_file : string;
  doc_title : string;
  doc_table : pl.DataFrame;
  doc_text : string;
}.

Record World := mkWorld {
  files : gmap string string;
  rendered : list Document;
}.

Definition IO (A : Type) : Type := World → World * result A.

Global Instance IO_ret : MRet IO := λ A a w, (w, Ok a).
Global Instance IO_bind : MBind IO := λ A B k m w,
  match m w with
  | (w', Ok a) => k a w'
  | (w', Raise e) => (w', Raise e)
  end.

Global Instance result_fmap : FMap result := λ A B f r,
  match r with Ok a => Ok (f a) | Raise e => Raise e end.

Definition lift {A} (r : result A) : IO A := λ w, (w, r).

(** [path.open(mode="r")] followed by [read()] *)
Definition read_text (path : string) : IO string := λ w,
  match files w !! path with
  | Some text => (w, Ok text)
  | None => (w, Raise FileNotFoundError)
  end.

(** [path.open(mode="w")] followed by [write(text)] *)
Definition write_text (path text : string) : IO unit := λ w,
  ({| files := <[path := text]> (files w); rendered := rendered w |}, Ok ()).

(** Records a document that has been written. *)
Definition trace (d : Document) : IO unit := λ w,
  ({| files := files w; rendered := rendered w ++ [d] |}, Ok ()).

(** A [for] loop that threads the variables its body assigns. *)
Fixpoint for_ {A S} (l : list A) (body : S → A → IO S) (s : S) : IO S :=
  match l with
  | [] => mret s
  | x :: l' => s' ← body s x; for_ l' body s'
  end.

(** [Path(a) / b], for a relative [b]; a path is the string of its
    segments. *)
Definition joinpath (a b : string) : string := a +:+ "/" +:+ b.

Definition TEMPLATE_PATH : string := joinpath "utils" "api-completeness.md.jinja".
Definition DESTINATION_PATH : string := joinpath "docs" "api-completeness".

Section Script.

(** [str(results)] under the table configuration of the script. *)
Variable str_table : pl.DataFrame → string.

(** [Template(source).render({"backend_table": table, "title": title})] *)
Variable Template_render : string → string → string → result string.

Definition render_table_and_write_to_output
    (results : list pl.DataFrame) (title output_filename : string) : IO string :=
  results ← lift (presence_matrix results);
  let table := str_table results in
  stream ← read_text TEMPLATE_PATH;
  new_content ← lift (Template_render stream table title);
  let destination := joinpath DESTINATION_PATH (output_filename +:+ ".md") in
  write_text destination new_content;;
  trace (mkDocument destination title results new_content);;
  mret table.

Variable env : packages.

(** The frames of one class: the canonical row-set, then one row-set per
    registered backend. *)
Definition class_frames (module_name nw_class_name : string) (nw_class : object)
  : result (list pl.DataFrame) :=
  let nw_methods := get_class_methods nw_class in
  let narwhals := pl.from_dict "narwhals" nw_methods in
  backend_methods ←
    mapM (λ backend,
            pl.from_dict (name backend)
              <$> parse_module env module_name (module backend) nw_class_name)
         BACKENDS;
  mret (narwhals :: backend_methods).

(** The body of the loop over the classes of a module; the loop assigns
    [results] and [processed_classes]. *)
Definition class_step (module_name : string)
    (vars : list pl.DataFrame * gset string) (entry : string * object)
  : IO (list pl.DataFrame * gset string) :=
  let '(results, processed_classes) := vars in
  let '(nw_class_name, nw_class) := entry in
  if decide (nw_class_name ∈ EXCLUDE_CLASSES) then mret vars
  else
    frames ← lift (class_frames module_name nw_class_name nw_class);
    let results := results ++ frames in
    if decide (nw_class_name ∈ ({[ "DataFrame"; "LazyFrame" ]} : gset string)) then
      render_table_and_write_to_output frames nw_class_name (Str.lower nw_class_name);;
      mret (results, processed_classes ∪ {[ nw_class_name ]})
    else mret (results, processed_classes).

Definition defined_in (nw_namespace : string) (c : object) : bool :=
  isclass c && String.eqb (obj_module c) nw_namespace.

(** The body of the loop over [MODULES]. *)
Definition process_module (module_name : string) : IO unit :=
  let nw_namespace := "narwhals." +:+ module_name in
  narwhals_module_ ← lift (import_module env nw_namespace);
  let classes_ := getmembers (mod_dir narwhals_module_) (defined_in nw_namespace) in
  vars ← for_ classes_ (class_step module_name) ([], ∅);
  let '(results, processed_classes) := vars in
  if decide (processed_classes = {[ "DataFrame"; "LazyFrame" ]}) then mret ()
  else
    render_table_and_write_to_output results
      (Str.replace "_" "." (Str.capitalize module_name)) module_name;;
    mret ().

Definition get_backend_completeness_table : IO unit :=
  for_ MODULES (λ _ module_name, process_module module_name) ().

End Script.

(** ** Notions used in the statements *)

(** [c] labels the Backend cell of a row handed to the builder: the
    participants of a matrix. *)
Definition participant (results : list pl.DataFrame) (c : string) : Prop :=
  ∃ df r, df ∈ results ∧ r ∈ pl.rows df ∧ pl.label (pl.value r "Backend") = c.

(** Some row of [rows] pairs the method cell [k] with the participant [c]. *)
Definition occurs (rows : list pl.row) (k : option string) (c : string) : Prop :=
  Exists (λ r, pl.value r "Method" = k ∧ pl.label (pl.value r "Backend") = c) rows.

Global Instance occurs_dec rows k c : Decision (occurs rows k c).
Proof. unfold occurs. apply _. Defined.

(** The world after [docs] have been rendered, oldest first. *)
Definition write_all (docs : list Document) (w : World) : World :=
  {| files := foldl (λ fs d, <[doc_file d := doc_text d]> fs) (files w) docs;
     rendered := rendered w ++ docs |}.

(** A document of the builder: it holds the matrix of some row-sets and does
    not lie at the path of the template. *)
Definition builder_document (d : Document) : Prop :=
  doc_file d ≠ TEMPLATE_PATH
  ∧ ∃ results, presence_matrix results = Ok (doc_table d).

(** An action that depends on the world through the text [t] of the template
    only: in every world with that template it renders the same documents of
    the builder and then returns or raises the same. *)
Definition template_determined {A} (t : option string) (act : IO A) : Prop :=
  ∃ docs r,
    Forall builder_document docs
    ∧ ∀ w, files w !! TEMPLATE_PATH = t → act w = (write_all docs w, r).

(** The classes of a conceptual module that the driver works on: those
    defined in the module whose name is not excluded, in the order of
    [getmembers]. *)
Definition module_classes (m : py_module) (nw_namespace : string) : list (string * object) :=
  filter (λ entry, entry.1 ∉ EXCLUDE_CLASSES)
         (getmembers (mod_dir m) (defined_in nw_namespace)).

(** The two frame variants, which get a document each. *)
Definition is_frame (entry : string * object) : Prop :=
  entry.1 ∈ ({[ "DataFrame"; "LazyFrame" ]} : gset string).

Global Instance is_frame_dec entry : Decision (is_frame entry).
Proof. unfold is_frame. apply _. Defined.

(** ** A small installation

    A few modules of the unifying API and of the backend packages, cut down
    to a handful of members, on which the script can be run. *)

Module Demo.

Definition class_ (name module : string) (members : list (string * member)) : object :=
  Object true name module (list_to_map members).

(** Something that is not a class, such as a function or a type alias. *)
Definition other : object := Object false "" "" ∅.

Definition BaseFrame : object :=
  class_ "BaseFrame" "narwhals.dataframe"
    [("_df", implemented); ("pipe", implemented)].
Definition DataFrame : object :=
  class_ "DataFrame" "narwhals.dataframe"
    [("__init__", implemented); ("join", implemented); ("pipe", implemented);
     ("select", implemented); ("to_pandas", implemented)].
Definition LazyFrame : object :=
  class_ "LazyFrame" "narwhals.dataframe"
    [("_x", implemented); ("collect", implemented); ("select", implemented)].
Definition GroupBy : object :=
  class_ "GroupBy" "narwhals.dataframe" [("agg", implemented)].
Definition Series : object :=
  class_ "Series" "narwhals.series" [("len", implemented); ("to_list", implemented)].

Definition narwhals_dataframe : py_module :=
  PyModule (list_to_map
    [("BaseFrame", BaseFrame); ("DataFrame", DataFrame); ("LazyFrame", LazyFrame);
     ("Series", Series); ("overload", other)]).

(** The same module with one more public class of its own. *)
Definition narwhals_dataframe_extra : py_module :=
  PyModule (<["GroupBy" := GroupBy]> (mod_dir narwhals_dataframe)).

Definition ArrowDataFrame : object :=
  class_ "ArrowDataFrame" "narwhals._arrow.dataframe"
    [("_native_frame", implemented); ("join", not_implemented);
     ("select", implemented); ("to_arrow", implemented);
     ("to_pandas", implemented)].
Definition CompliantDataFrame : object :=
  class_ "CompliantDataFrame" "narwhals._compliant.dataframe"
    [("join", implemented); ("select", implemented)].
Definition EagerDataFrame : object :=
  class_ "EagerDataFrame" "narwhals._compliant.dataframe"
    [("select", implemented)].
Definition PandasLikeDataFrame : object :=
  class_ "PandasLikeDataFrame" "narwhals._pandas_like.dataframe"
    [("join", implemented); ("select", implemented); ("to_pandas", implemented)].
Definition DaskLazyFrame : object :=
  class_ "DaskLazyFrame" "narwhals._dask.dataframe"
    [("collect", implemented); ("select", implemented)].
Definition SparkLikeLazyFrame : object :=
  class_ "SparkLikeLazyFrame" "narwhals._spark_like.dataframe"
    [("collect", not_implemented); ("select", implemented)].

Definition ExprStringNamespace : object :=
  class_ "ExprStringNamespace" "narwhals.expr_str"
    [("head", implemented); ("len_chars", implemented); ("tail", implemented)].
Definition DaskExprStringNamespace : object :=
  class_ "DaskExprStringNamespace" "narwhals._dask.expr_str"
    [("len_chars", implemented)].

Definition env : packages :=
  list_to_map
    [("narwhals.dataframe", narwhals_dataframe);
     ("narwhals.series", PyModule {[ "Series" := Series ]});
     ("narwhals.expr_str",
       PyModule {[ "ExprStringNamespace" := ExprStringNamespace ]});
     ("narwhals._arrow.dataframe",
       PyModule (list_to_map
         [("ArrowDataFrame", ArrowDataFrame);
          ("CompliantDataFrame", CompliantDataFrame)]));
     ("narwhals._pandas_like.dataframe",
       PyModule (list_to_map
         [("PandasLikeDataFrame", PandasLikeDataFrame);
          ("EagerDataFrame", EagerDataFrame)]));
     ("narwhals._dask.dataframe", PyModule {[ "DaskLazyFrame" := DaskLazyFrame ]});
     ("narwhals._spark_like.dataframe",
       PyModule {[ "SparkLikeLazyFrame" := SparkLikeLazyFrame ]});
     ("narwhals._dask.expr_str",
       PyModule {[ "DaskExprStringNamespace" := DaskExprStringNamespace ]})].

Definition env_extra : packages :=
  <["narwhals.dataframe" := narwhals_dataframe_extra]> env.

(** A table printer and a template engine to run the script with. *)
Definition str_table (df : pl.DataFrame) : string :=
  String.concat "|" (pl.columns df).
Definition Template_render (source table title : string) : result string :=
  Ok (source +:+ title +:+ table).

Definition world : World :=
  {| files := {[ TEMPLATE_PATH := "# " ]}; rendered := [] |}.

(** A world that still holds a document of an earlier run. *)
Definition stale_world : World :=
  {| files := <[ "docs/api-completeness/series.md" := "stale" ]> (files world);
     rendered := [] |}.

Definition or_empty (r : result pl.DataFrame) : pl.DataFrame :=
  match r with Ok df => df | Raise _ => pl.mkDataFrame [] [] end.

Definition frames_of (nw_class_name : string) (nw_class : object) : list pl.DataFrame :=
  match class_frames env "dataframe" nw_class_name nw_class with
  | Ok frames => frames
  | Raise _ => []
  end.

Definition DataFrame_matrix : pl.DataFrame :=
  Eval vm_compute in or_empty (presence_matrix (frames_of "DataFrame" DataFrame)).
Definition LazyFrame_matrix : pl.DataFrame :=
  Eval vm_compute in or_empty (presence_matrix (frames_of "LazyFrame" LazyFrame)).

End Demo.

(** ** Notions used in the further properties *)

(** The path of the document written under a file name. *)
Definition destination (output_filename : string) : string :=
  joinpath DESTINATION_PATH (output_filename +:+ ".md").

(** The documents that working on a module can render: one for either frame
    variant, under the lower-cased class name, and the aggregate under the
    name of the module. *)
Definition module_document (module_name : string) (d : Document) : Prop :=
  (doc_title d = "DataFrame" ∧ doc_file d = destination "dataframe")
  ∨ (doc_title d = "LazyFrame" ∧ doc_file d = destination "lazyframe")
  ∨ (doc_title d = Str.replace "_" "." (Str.capitalize module_name)
     ∧ doc_file d = destination module_name).

(** The files the script can write. *)
Definition output_files : list string :=
  destination <$> ("dataframe" :: "lazyframe" :: MODULES).

(** Whatever the outcome of the action, what it did to the world is to render
    documents that satisfy [P]. *)
Definition renders {A} (P : Document → Prop) (act : IO A) : Prop :=
  ∀ w w' r, act w = (w', r) → ∃ docs, w' = write_all docs w ∧ Forall P docs.

(** ** Further installations *)

Module Sample.

(** A canonical package with every module of the registry, each with one
    class of its own, and no backend package. *)
Definition env_full : packages :=
  list_to_map
    ((λ module_name,
        ("narwhals." +:+ module_name,
         PyModule {[ "Api" := Demo.class_ "Api" ("narwhals." +:+ module_name)
                                [("f", implemented)] ]}))
     <$> MODULES).

(** A backend module that holds a protocol and an interchange class only. *)
Definition protocols : py_module :=
  PyModule (list_to_map
    [("CompliantDataFrame", Demo.CompliantDataFrame);
     ("DuckDBInterchangeDataFrame",
       Demo.class_ "DuckDBInterchangeDataFrame" "narwhals._duckdb.dataframe"
         [("select", implemented)]);
     ("overload", Demo.other)]).

Definition env_protocols : packages :=
  {[ "narwhals._duckdb.dataframe" := protocols ]}.

(** A backend class that marks a generic method as not implemented. *)
Definition DaskLazyFrame : object :=
  Demo.class_ "DaskLazyFrame" "narwhals._dask.dataframe"
    [("_native", implemented); ("collect", implemented);
     ("pipe", not_implemented); ("unique", not_implemented)].

Definition dask_dataframe : py_module :=
  PyModule {[ "DaskLazyFrame" := DaskLazyFrame ]}.

Definition env_dask : packages :=
  {[ "narwhals._dask.dataframe" := dask_dataframe ]}.

(** A canonical module whose only class is excluded, and a class without
    public members. *)
Definition env_excluded : packages :=
  {[ "narwhals.expr" := PyModule {[ "Then" := Demo.class_ "Then" "narwhals.expr"
                                              [("otherwise", implemented)] ]} ]}.

Definition Private : object :=
  Demo.class_ "Private" "narwhals.series" [("__init__", implemented)].

(** The row of a matrix for a method name. *)
Definition row_of (m : pl.DataFrame) (M : string) : pl.row :=
  default ∅ (head (filter (λ r, pl.value r "Method" = Some M) (pl.rows m))).

(** A world without the template. *)
Definition bare_world : World := {| files := ∅; rendered := [] |}.

(** A series module with two classes of its own, and a backend that has a
    class for the first of them only. *)
Definition Window : object :=
  Demo.class_ "Window" "narwhals.series" [("mean", implemented)].

Definition narwhals_series : py_module :=
  PyModule (list_to_map [("Series", Demo.Series); ("Window", Window)]).

Definition ArrowSeries : object :=
  Demo.class_ "ArrowSeries" "narwhals._arrow.series"
    [("len", implemented); ("mean", implemented)].

Definition env_series : packages :=
  list_to_map
    [("narwhals.series", narwhals_series);
     ("narwhals._arrow.series", PyModule {[ "ArrowSeries" := ArrowSeries ]})].

(** A backend module that binds its base class under an alias, as
    [from narwhals._compliant.dataframe import EagerDataFrame as _Base]
    does. *)
Definition pandas_like_aliased : py_module :=
  PyModule (list_to_map
    [("PandasLikeDataFrame", Demo.PandasLikeDataFrame);
     ("_Base", Demo.EagerDataFrame)]).

Definition env_aliased : packages :=
  {[ "narwhals._pandas_like.dataframe" := pandas_like_aliased ]}.

(** A backend that has a class for [Private]. *)
Definition ArrowPrivate : object :=
  Demo.class_ "ArrowPrivate" "narwhals._arrow.series" [("len", implemented)].

Definition env_private : packages :=
  {[ "narwhals._arrow.series" := PyModule {[ "ArrowPrivate" := ArrowPrivate ]} ]}.

(** The row-sets of a class in an installation. *)
Definition frames_in (env : packages) (module_name : string)
    (entry : string * object) : list pl.DataFrame :=
  match class_frames env module_name entry.1 entry.2 with
  | Ok frames => frames
  | Raise _ => []
  end.

End Sample.

(** * Properties *)

(** ** Strings *)

Lemma startswith_underscore_cons c s :
  Str.startswith (String c s) "_" = true ↔ c = "_"%char.
Proof.
  change (Str.startswith (String c s) "_")
    with (if Ascii.ascii_dec "_" c then String.prefix "" s else false).
  destruct (Ascii.ascii_dec "_" c) as [<-|Hne].
  - split; [done|]. intros _. by destruct s.
  - split; [done|]. by intros ->.
Qed.

Lemma endswith_unfold s suf :
  Str.endswith s suf =
    if String.eqb s suf then true
    else match s with
         | EmptyString => false
         | String _ s' => Str.endswith s' suf
         end.
Proof. by destruct s. Qed.

Lemma endswith_spec s suf :
  Str.endswith s suf = true ↔ ∃ pre, s = pre +:+ suf.
Proof.
  induction s as [|c s IH]; rewrite endswith_unfold.
  - destruct (String.eqb_spec "" suf) as [<-|Hne].
    + split; [|done]. intros _. by exists "".
    + split; [done|]. intros [[|c pre] Hpre]; simpl in Hpre; [done|discriminate].
  - destruct (String.eqb_spec (String c s) suf) as [<-|Hne].
    + split; [|done]. intros _. by exists "".
    + rewrite IH. split.
      * intros [pre ->]. by exists (String c pre).
      * intros [[|c' pre] Hpre]; simpl in Hpre; [done|].
        injection Hpre as -> ->. by exists pre.
Qed.

(** ** Reflection *)

Global Instance by_name_total {A} : Total (@by_name A).
Proof. intros x y. unfold by_name. apply (total String.le). Qed.

Global Instance by_name_trans {A} : Transitive (@by_name A).
Proof. intros x y z. unfold by_name. apply (transitivity (R := String.le)). Qed.

Section getmembers.
Context {A : Type} (ns : gmap string A) (predicate : A → bool).

Lemma elem_of_getmembers k v :
  (k, v) ∈ getmembers ns predicate ↔ ns !! k = Some v ∧ predicate v = true.
Proof.
  unfold getmembers. rewrite merge_sort_Permutation, list_elem_of_filter.
  rewrite elem_of_map_to_list. simpl. tauto.
Qed.

Lemma getmembers_sorted : StronglySorted by_name (getmembers ns predicate).
Proof. apply StronglySorted_merge_sort; apply _. Qed.

Lemma getmembers_NoDup : NoDup (getmembers ns predicate).*1.
Proof.
  unfold getmembers. rewrite merge_sort_Permutation.
  eapply sublist_NoDup; [apply (NoDup_fst_map_to_list ns)|].
  apply fmap_sublist, sublist_filter.
Qed.

(** The first pair is the one with the least name among those that pass the
    predicate. *)
Lemma getmembers_head k v :
  ns !! k = Some v → predicate v = true →
  (∀ k' v', ns !! k' = Some v' → predicate v' = true → String.le k k') →
  ∃ rest, getmembers ns predicate = (k, v) :: rest.
Proof.
  intros Hk Hv Hleast.
  assert ((k, v) ∈ getmembers ns predicate) as Hin
    by by apply elem_of_getmembers.
  pose proof getmembers_sorted as Hsorted.
  destruct (getmembers ns predicate) as [|[k0 v0] rest] eqn:Heq.
  { by apply elem_of_nil in Hin. }
  exists rest. f_equal.
  assert ((k0, v0) ∈ getmembers ns predicate) as Hin0
    by (rewrite Heq; left).
  apply elem_of_getmembers in Hin0 as [Hk0 Hv0].
  assert (k0 = k) as ->.
  { apply (anti_symm String.le); [|by eapply Hleast].
    apply elem_of_cons in Hin as [[= -> ->]|Hin]; [done|].
    apply StronglySorted_inv in Hsorted as [_ Hall].
    rewrite Forall_forall in Hall. apply (Hall _ Hin). }
  congruence.
Qed.

Lemma getmembers_nil :
  getmembers ns predicate = [] ↔ ∀ k v, ns !! k = Some v → predicate v = false.
Proof.
  split.
  - intros Heq k v Hk. destruct (predicate v) eqn:Hv; [|done].
    assert ((k, v) ∈ getmembers ns predicate) as Hin
      by by apply elem_of_getmembers.
    rewrite Heq in Hin. by apply elem_of_nil in Hin.
  - intros Hnone. apply elem_of_nil_inv. intros [k v] Hin.
    apply elem_of_getmembers in Hin as [Hk Hv].
    rewrite (Hnone _ _ Hk) in Hv. done.
Qed.
End getmembers.

(** ** Method enumerators *)

Lemma elem_of_get_class_methods kls n :
  n ∈ get_class_methods kls
  ↔ is_Some (obj_dir kls !! n) ∧ Str.startswith n "_" = false.
Proof.
  unfold get_class_methods. rewrite list_elem_of_fmap. split.
  - intros ([k v] & -> & Hin). apply list_elem_of_filter in Hin as [Hpub Hin].
    apply elem_of_getmembers in Hin as [Hk _]. simpl in *. eauto.
  - intros [[v Hv] Hpub]. exists (n, v). split; [done|].
    apply list_elem_of_filter. split; [done|]. by apply elem_of_getmembers.
Qed.

Lemma implemented_filter (ns : gmap string member) (l : list (string * member)) :
  Forall (λ kv, ns !! kv.1 = Some kv.2) l →
  (filter (λ m, Str.startswith m.1 "_" = false
                ∧ isinstance_not_implemented m.2 = false) l).*1
  = filter (λ n, ns !! n ≠ Some not_implemented)
      (filter (λ m : string * member, Str.startswith m.1 "_" = false) l).*1.
Proof.
  induction 1 as [|[k v] l Hkv _ IH]; [done|]. simpl in Hkv.
  rewrite !filter_cons. simpl.
  destruct (decide (Str.startswith k "_" = false)) as [Hpub|Hpriv].
  - rewrite fmap_cons, filter_cons. simpl. rewrite Hkv.
    destruct v; simpl.
    + rewrite decide_False by (intros [_ ?]; done). apply IH.
    + rewrite decide_True by done. rewrite fmap_cons. simpl. f_equal. apply IH.
  - rewrite decide_False by (intros [? _]; done). apply IH.
Qed.

Lemma iter_implemented_methods_filter tp :
  iter_implemented_methods tp
  = filter (λ n, obj_dir tp !! n ≠ Some not_implemented) (get_class_methods tp).
Proof.
  unfold iter_implemented_methods, get_class_methods.
  apply implemented_filter, Forall_forall. intros [k v] Hin.
  by apply elem_of_getmembers in Hin as [Hk _].
Qed.

Lemma get_class_methods_sorted kls :
  StronglySorted String.le (get_class_methods kls) ∧ NoDup (get_class_methods kls).
Proof.
  unfold get_class_methods. split.
  - apply (StronglySorted_fmap _ (@by_name member) String.le); [by intros [??] [??]|].
    pose proof (getmembers_sorted (obj_dir kls) (λ _, true)) as Hsorted.
    induction Hsorted as [|x l Hl IH Hall]; [constructor|].
    rewrite filter_cons. destruct (decide _); [|done].
    constructor; [done|]. apply Forall_forall. intros y Hy%list_elem_of_filter.
    rewrite Forall_forall in Hall. apply Hall, Hy.
  - eapply sublist_NoDup; [apply (getmembers_NoDup (obj_dir kls) (λ _, true))|].
    apply fmap_sublist, sublist_filter.
Qed.

(** C8. The canonical enumerator returns exactly the names of the members of
    the class that do not start with an underscore; the backend enumerator
    returns that list with the members that are [not_implemented] sentinels
    filtered out; neither produces a name that starts with an underscore. *)
Theorem enumerators_return_public_members (kls : object) :
  (∀ n, n ∈ get_class_methods kls
        ↔ is_Some (obj_dir kls !! n) ∧ Str.startswith n "_" = false)
  ∧ iter_implemented_methods kls
    = filter (λ n, obj_dir kls !! n ≠ Some not_implemented) (get_class_methods kls)
  ∧ (∀ n, n ∈ iter_implemented_methods kls
          ↔ n ∈ get_class_methods kls ∧ obj_dir kls !! n ≠ Some not_implemented)
  ∧ Forall (λ n, Str.startswith n "_" = false)
      (get_class_methods kls ++ iter_implemented_methods kls).
Proof.
  split; [apply elem_of_get_class_methods|].
  split; [apply iter_implemented_methods_filter|].
  split.
  - intros n. rewrite iter_implemented_methods_filter, list_elem_of_filter. tauto.
  - apply Forall_app. split; apply Forall_forall; intros n Hn.
    + by apply elem_of_get_class_methods in Hn as [_ Hn].
    + rewrite iter_implemented_methods_filter in Hn.
      apply list_elem_of_filter in Hn as [_ Hn].
      by apply elem_of_get_class_methods in Hn as [_ Hn].
Qed.

(** ** Backend resolver *)

Section parse_module.
Context (env : packages) (module_name backend nw_class_name : string).

Let path : string := "narwhals." +:+ backend +:+ "." +:+ module_name.

Lemma parse_module_no_module :
  env !! path = None →
  parse_module env module_name backend nw_class_name = Ok [].
Proof.
  intros Hnone. unfold parse_module, import_module. fold path.
  by rewrite Hnone.
Qed.

Lemma parse_module_no_class m :
  env !! path = Some m →
  getmembers (mod_dir m) (class_matches nw_class_name) = [] →
  parse_module env module_name backend nw_class_name = Ok [].
Proof.
  intros Hm Hnil. unfold parse_module, import_module. fold path.
  rewrite Hm. simpl. by rewrite Hnil.
Qed.

Lemma parse_module_class m c0 rest :
  env !! path = Some m →
  getmembers (mod_dir m) (class_matches nw_class_name) = c0 :: rest →
  parse_module env module_name backend nw_class_name
  = Ok (iter_implemented_methods c0.2 ++ DIRECTLY_IMPLEMENTED_METHODS
        ++ if decide (module_name = "expr_str") then EXPR_STR_METHODS else []).
Proof.
  intros Hm Hcons. unfold parse_module, import_module. fold path.
  rewrite Hm. simpl. rewrite Hcons. simpl.
  destruct (decide (module_name = "expr_str")); simpl;
    by rewrite <-?app_assoc.
Qed.

(** No exception leaves the resolver. *)
Lemma parse_module_returns :
  ∃ methods_, parse_module env module_name backend nw_class_name = Ok methods_.
Proof.
  destruct (env !! path) as [m|] eqn:Hm.
  - destruct (getmembers (mod_dir m) (class_matches nw_class_name))
      as [|c0 rest] eqn:Hmem.
    + eauto using parse_module_no_class.
    + eauto using parse_module_class.
  - eauto using parse_module_no_module.
Qed.
End parse_module.

(** C10, as amended.  When several classes of the backend's module match,
    the resolver enumerates the one listed first by [getmembers], that is the
    match bound under the least name in alphabetical order of the names of
    the module's namespace; what the other matches are plays no part in the
    result.  When the matches are bound under their class names, this is the
    match whose class name is least. *)
Theorem parse_module_uses_first_match
    (env : packages) (module_name backend nw_class_name : string)
    (m : py_module) (n0 : string) (c0 : object) :
  env !! ("narwhals." +:+ backend +:+ "." +:+ module_name) = Some m →
  mod_dir m !! n0 = Some c0 →
  class_matches nw_class_name c0 = true →
  (∀ n c, mod_dir m !! n = Some c → class_matches nw_class_name c = true →
          String.le n0 n) →
  parse_module env module_name backend nw_class_name
  = Ok (iter_implemented_methods c0 ++ DIRECTLY_IMPLEMENTED_METHODS
        ++ if decide (module_name = "expr_str") then EXPR_STR_METHODS else [])
  ∧ ((∀ n c, mod_dir m !! n = Some c → class_matches nw_class_name c = true →
             obj_name c = n) →
     ∀ n c, mod_dir m !! n = Some c → class_matches nw_class_name c = true →
            String.le (obj_name c0) (obj_name c)).
Proof.
  intros Hm Hn0 Hc0 Hleast. split.
  - destruct (getmembers_head (mod_dir m) (class_matches nw_class_name) n0 c0)
      as [rest Hhead]; [done..|].
    by rewrite (parse_module_class _ _ _ _ m (n0, c0) rest).
  - intros Hnames n c Hn Hc.
    rewrite (Hnames n0 c0 Hn0 Hc0), (Hnames n c Hn Hc). by eapply Hleast.
Qed.

(** C3, as amended.  For the module [expr_str], whenever the backend's module
    exists and holds a matching class, the resolver's result includes
    ["tail"] and ["head"], whatever the members of that class are; when the
    module or the class is missing, the result is empty. *)
Theorem parse_module_expr_str (env : packages) (backend nw_class_name : string) :
  (∀ m n c,
     env !! ("narwhals." +:+ backend +:+ "." +:+ "expr_str") = Some m →
     mod_dir m !! n = Some c → class_matches nw_class_name c = true →
     ∃ methods_,
       parse_module env "expr_str" backend nw_class_name = Ok methods_
       ∧ "tail" ∈ methods_ ∧ "head" ∈ methods_)
  ∧ ((env !! ("narwhals." +:+ backend +:+ "." +:+ "expr_str") = None
      ∨ ∃ m, env !! ("narwhals." +:+ backend +:+ "." +:+ "expr_str") = Some m
             ∧ ∀ n c, mod_dir m !! n = Some c →
                      class_matches nw_class_name c = false) →
     parse_module env "expr_str" backend nw_class_name = Ok []).
Proof.
  split.
  - intros m n c Hm Hn Hc.
    destruct (getmembers (mod_dir m) (class_matches nw_class_name))
      as [|c0 rest] eqn:Hmem.
    { rewrite getmembers_nil in Hmem. rewrite (Hmem _ _ Hn) in Hc. done. }
    eexists. split; [by eapply parse_module_class|].
    rewrite decide_True by done. unfold EXPR_STR_METHODS.
    rewrite !elem_of_app, !elem_of_cons. tauto.
  - intros [Hnone|(m & Hm & Hmiss)].
    + by apply parse_module_no_module.
    + apply (parse_module_no_class _ _ _ _ m); [done|].
      by apply getmembers_nil.
Qed.

(** ** Data frames *)

Lemma bind_Ok {A B} (r : result A) (k : A → result B) (b : B) :
  r ≫= k = Ok b ↔ ∃ a, r = Ok a ∧ k a = Ok b.
Proof.
  destruct r as [a|e]; simpl; split.
  - eauto.
  - by intros (a' & [= ->] & Hk).
  - done.
  - by intros (a' & ? & _).
Qed.

Lemma fmap_Ok {A B} (f : A → B) (r : result A) (b : B) :
  f <$> r = Ok b ↔ ∃ a, r = Ok a ∧ b = f a.
Proof.
  destruct r as [a|e]; split.
  - intros [= <-]. eauto.
  - by intros (a' & [= ->] & ->).
  - done.
  - by intros (a' & ? & _).
Qed.

Global Instance cell_le_total : Total pl.cell_le.
Proof.
  intros [x|] [y|]; simpl; try tauto. apply (total String.le).
Qed.

Global Instance cell_le_trans : Transitive pl.cell_le.
Proof.
  intros [x|] [y|] [z|]; simpl; try tauto. apply (transitivity (R := String.le)).
Qed.

Global Instance by_column_total c : Total (pl.by_column c).
Proof. intros r1 r2. unfold pl.by_column. apply (total pl.cell_le). Qed.

Global Instance by_column_trans c : Transitive (pl.by_column c).
Proof.
  intros r1 r2 r3. unfold pl.by_column. apply (transitivity (R := pl.cell_le)).
Qed.

Lemma elem_of_unique {A} `{EqDecision A} (l : list A) x : x ∈ pl.unique l ↔ x ∈ l.
Proof.
  unfold pl.unique. by rewrite elem_of_reverse, elem_of_remove_dups, elem_of_reverse.
Qed.

Lemma NoDup_unique {A} `{EqDecision A} (l : list A) : NoDup (pl.unique l).
Proof. unfold pl.unique. rewrite reverse_Permutation. apply NoDup_remove_dups. Qed.

Lemma elem_of_sorted l c : c ∈ sorted l ↔ c ∈ l.
Proof. unfold sorted. by rewrite merge_sort_Permutation. Qed.

Lemma sorted_StronglySorted l : StronglySorted String.le (sorted l).
Proof. apply StronglySorted_merge_sort; apply _. Qed.

Section frame_steps.
Implicit Types df out : pl.DataFrame.

Lemma concat_Ok items out :
  pl.concat items = Ok out →
  items ≠ [] ∧ pl.rows out = mjoin (pl.rows <$> items).
Proof.
  destruct items as [|df rest]; simpl; [done|].
  case_decide; [|done]. by intros [= <-].
Qed.

Lemma pivot_Ok on index values df out :
  pl.pivot on index values df = Ok out →
  let ons := pl.unique ((λ r, pl.value r on) <$> pl.rows df) in
  let keys := pl.unique ((λ r, pl.value r index) <$> pl.rows df) in
  let first k o :=
    head (filter (λ r, pl.value r index = k ∧ pl.value r on = o) (pl.rows df))
      ≫= λ r, pl.value r values in
  NoDup (index :: (pl.label <$> ons))
  ∧ pl.columns out = index :: (pl.label <$> ons)
  ∧ pl.rows out
    = (λ k, <[index := k]>
              (list_to_map ((λ o, (pl.label o, first k o)) <$> ons))) <$> keys.
Proof.
  unfold pl.pivot. case_decide; [|done]. case_decide; [|done].
  by intros [= <-].
Qed.

Lemma filter_is_not_null_Ok c df out :
  pl.filter_is_not_null c df = Ok out →
  c ∈ pl.columns df
  ∧ pl.columns out = pl.columns df
  ∧ pl.rows out = filter (λ r, is_Some (pl.value r c)) (pl.rows df).
Proof. unfold pl.filter_is_not_null. case_decide; [|done]. by intros [= <-]. Qed.

Lemma drop_Ok c df out :
  pl.drop c df = Ok out →
  pl.columns out = filter (λ c', c' ≠ c) (pl.columns df)
  ∧ pl.rows out = delete c <$> pl.rows df.
Proof. unfold pl.drop. case_decide; [|done]. by intros [= <-]. Qed.

Lemma sort_Ok c df out :
  pl.sort c df = Ok out →
  pl.columns out = pl.columns df
  ∧ pl.rows out = merge_sort (pl.by_column c) (pl.rows df).
Proof. unfold pl.sort. case_decide; [|done]. by intros [= <-]. Qed.

Lemma select_Ok names df out :
  pl.select names df = Ok out →
  NoDup names
  ∧ pl.columns out = names
  ∧ pl.rows out = filter (λ kv, kv.1 ∈ names) <$> pl.rows df.
Proof.
  unfold pl.select. case_decide; [|done]. case_decide; [|done].
  by intros [= <-].
Qed.
End frame_steps.

(** ** Matrix builder *)

(** What a successful run of the builder computed, step by step. *)
Lemma presence_matrix_Ok results m :
  presence_matrix results = Ok m →
  ∃ long piv,
    pl.concat results = Ok long
    ∧ pl.pivot "Backend" "Method" "supported"
        (pl.with_columns "supported" ":white_check_mark:" long) = Ok piv
    ∧ "narwhals" ∈ pl.columns piv
    ∧ let names :=
        "Method"
        :: sorted (filter (λ c, c ≠ "Method")
                     (filter (λ c, c ≠ "narwhals") (pl.columns piv)) ++ ["polars"]) in
      NoDup names
      ∧ pl.columns m = names
      ∧ pl.rows m
        = (λ r, filter (λ kv, kv.1 ∈ names) (<["polars" := Some ":white_check_mark:"]> r))
          <$> merge_sort (pl.by_column "Method")
                (fmap (M := gmap string) (λ o, Some (default ":x:" o))
                 <$> (delete "narwhals"
                      <$> filter (λ r, is_Some (pl.value r "narwhals")) (pl.rows piv))).
Proof.
  unfold presence_matrix. intros H.
  apply bind_Ok in H as (long & Hlong & H).
  apply bind_Ok in H as (piv & Hpiv & H).
  apply bind_Ok in H as (kept & Hkept & H).
  apply bind_Ok in H as (dropped & Hdropped & H).
  apply bind_Ok in H as (ordered & Hordered & H).
  apply filter_is_not_null_Ok in Hkept as (Hin & Hkept_cols & Hkept_rows).
  apply drop_Ok in Hdropped as (Hdropped_cols & Hdropped_rows).
  apply sort_Ok in Hordered as (Hordered_cols & Hordered_rows).
  apply select_Ok in H as (Hnodup & Hcols & Hrows).
  simpl in *.
  rewrite Hordered_cols, Hdropped_cols, Hkept_cols in *.
  rewrite Hordered_rows, Hdropped_rows, Hkept_rows in *.
  exists long, piv. repeat (split; [done|]).
  by rewrite Hrows, <-list_fmap_compose.
Qed.

Section finished_rows.
Context (names : list string).

Let finish (r : pl.row) : pl.row :=
  filter (λ kv, kv.1 ∈ names) (<["polars" := Some ":white_check_mark:"]> r).

Lemma finish_polars r :
  "polars" ∈ names → pl.value (finish r) "polars" = Some ":white_check_mark:".
Proof.
  intros Hin. unfold pl.value, finish.
  erewrite map_lookup_filter_Some_2; [done| |done].
  by rewrite lookup_insert_eq.
Qed.

Lemma finish_other r c :
  c ∈ names → c ≠ "polars" → finish r !! c = r !! c.
Proof.
  intros Hin Hne. unfold finish.
  destruct (r !! c) as [v|] eqn:Hc.
  - apply map_lookup_filter_Some_2; [|done]. by rewrite lookup_insert_ne.
  - apply map_lookup_filter_None_2. left. by rewrite lookup_insert_ne.
Qed.

Lemma finish_absent r c : c ∉ names → finish r !! c = None.
Proof.
  intros Hnot. unfold finish. apply map_lookup_filter_None_2.
  right. intros v _. done.
Qed.
End finished_rows.

Lemma cells_sorted (l : list (option string)) :
  Forall is_Some l → StronglySorted pl.cell_le l →
  ∃ names, l = Some <$> names ∧ StronglySorted String.le names.
Proof.
  induction 1 as [|x l [n ->] Hl IH]; intros Hsorted.
  - exists []. split; [done|constructor].
  - apply StronglySorted_inv in Hsorted as [Hsorted Hall].
    destruct (IH Hsorted) as (names & -> & Hnames).
    exists (n :: names). split; [done|]. constructor; [done|].
    rewrite Forall_fmap in Hall. done.
Qed.

Lemma pivot_rows_index on index values df out r :
  pl.pivot on index values df = Ok out →
  r ∈ pl.rows out → is_Some (r !! index).
Proof.
  intros (_ & _ & Hrows)%pivot_Ok. rewrite Hrows, list_elem_of_fmap.
  intros (k & -> & _). rewrite lookup_insert_eq. eauto.
Qed.

(** C5. In every rendered matrix the column of the reference backend
    ["polars"] holds the check mark in every row, never the cross. *)
Theorem polars_column_always_present results m :
  presence_matrix results = Ok m →
  "polars" ∈ pl.columns m
  ∧ ∀ r, r ∈ pl.rows m →
         pl.value r "polars" = Some ":white_check_mark:"
         ∧ pl.value r "polars" ≠ Some ":x:".
Proof.
  intros (long & piv & _ & _ & _ & _ & Hcols & Hrows)%presence_matrix_Ok.
  assert ("polars" ∈ pl.columns m) as Hin.
  { rewrite Hcols. right. apply elem_of_sorted, elem_of_app. right. left. }
  split; [done|]. intros r. rewrite Hrows, list_elem_of_fmap.
  intros (r' & -> & _). rewrite <-Hcols.
  rewrite finish_polars by done. done.
Qed.

(** C7. In every rendered matrix the rows are in ascending lexicographic
    order of their method names. *)
Theorem rows_sorted_by_method results m :
  presence_matrix results = Ok m →
  ∃ names, method_names m = Some <$> names ∧ StronglySorted String.le names.
Proof.
  intros (long & piv & _ & Hpiv & _ & Hnodup & Hcols & Hrows)%presence_matrix_Ok.
  simpl in *. rewrite <-Hcols in Hrows.
  assert ("Method" ∈ pl.columns m) as Hin by (rewrite Hcols; left).
  apply cells_sorted.
  - unfold method_names. rewrite Forall_fmap, Hrows, Forall_fmap.
    apply Forall_forall. intros r Hr. simpl. unfold pl.value.
    rewrite finish_other by done.
    rewrite merge_sort_Permutation in Hr.
    apply list_elem_of_fmap in Hr as (r1 & -> & Hr).
    apply list_elem_of_fmap in Hr as (r2 & -> & Hr).
    apply list_elem_of_filter in Hr as [_ Hr].
    destruct (pivot_rows_index _ _ _ _ _ _ Hpiv Hr) as [k Hk].
    rewrite lookup_fmap, lookup_delete_ne, Hk by done. simpl. eauto.
  - unfold method_names. rewrite Hrows, <-list_fmap_compose.
    eapply (StronglySorted_fmap _ (pl.by_column "Method") pl.cell_le);
      [|apply StronglySorted_merge_sort; apply _].
    intros r1 r2 Hle. simpl. unfold pl.value.
    by rewrite !finish_other by done.
Qed.

Lemma value_with_columns_ne (r : pl.row) c c' v :
  c ≠ c' → pl.value (<[c := v]> r) c' = pl.value r c'.
Proof. intros Hne. unfold pl.value. by rewrite lookup_insert_ne. Qed.

(** The columns a pivot on ["Backend"] makes are the participants. *)
Lemma pivot_columns_participants results long piv :
  pl.concat results = Ok long →
  pl.pivot "Backend" "Method" "supported"
    (pl.with_columns "supported" ":white_check_mark:" long) = Ok piv →
  ∃ labels,
    pl.columns piv = "Method" :: labels
    ∧ NoDup ("Method" :: labels)
    ∧ ∀ c, c ∈ labels ↔ participant results c.
Proof.
  intros [_ Hlong]%concat_Ok (Hnodup & Hcols & _)%pivot_Ok.
  eexists. split; [done|]. split; [done|]. intros c.
  rewrite list_elem_of_fmap. setoid_rewrite elem_of_unique.
  setoid_rewrite list_elem_of_fmap. simpl. rewrite Hlong. unfold participant.
  split.
  - intros (o & -> & r & -> & Hr).
    apply list_elem_of_fmap in Hr as (r0 & -> & Hr0).
    apply list_elem_of_join in Hr0 as (l & Hr0 & Hl).
    apply list_elem_of_fmap in Hl as (df & -> & Hdf).
    exists df, r0. by rewrite value_with_columns_ne.
  - intros (df & r0 & Hdf & Hr0 & <-).
    exists (pl.value r0 "Backend"). split; [done|].
    exists (<["supported" := Some ":white_check_mark:"]> r0).
    split; [by rewrite value_with_columns_ne|].
    apply list_elem_of_fmap_2, list_elem_of_join.
    exists (pl.rows df). split; [done|]. by apply list_elem_of_fmap_2.
Qed.

(** The columns of a matrix: the method column, the reference backend, and
    the participants other than the canonical one. *)
Lemma matrix_columns results m c :
  presence_matrix results = Ok m →
  c ∈ pl.columns m
  ↔ c = "Method" ∨ c = "polars" ∨ (c ≠ "narwhals" ∧ participant results c).
Proof.
  intros (long & piv & Hlong & Hpiv & _ & _ & Hcols & _)%presence_matrix_Ok.
  destruct (pivot_columns_participants _ _ _ Hlong Hpiv)
    as (labels & Hlabels & Hnodup & Hpart).
  simpl in *. rewrite Hcols, elem_of_cons, elem_of_sorted, elem_of_app.
  rewrite list_elem_of_singleton, !list_elem_of_filter, Hlabels, elem_of_cons, Hpart.
  apply NoDup_cons in Hnodup as [Hmethod _].
  split.
  - intros [?|[(Hc & Hn & [?|Hp])|?]]; [by left|done|by right; right|by right; left].
  - intros [?|[?|[Hn Hp]]]; [by left|by right; right|].
    right. left. split_and!; [|done|by right].
    intros ->. by apply Hmethod, Hpart.
Qed.

(** C1, as amended.  The columns after ["Method"] are the backend columns
    together with ["polars"], all in one ascending alphabetical order: the
    reference backend stands at its alphabetical place. *)
Theorem columns_sorted_with_polars results m :
  presence_matrix results = Ok m →
  ∃ cols,
    pl.columns m = "Method" :: cols
    ∧ StronglySorted String.le cols
    ∧ NoDup cols
    ∧ ∀ c, c ∈ cols ↔ c = "polars" ∨ (c ≠ "narwhals" ∧ participant results c).
Proof.
  intros Hm.
  destruct (presence_matrix_Ok _ _ Hm)
    as (long & piv & Hlong & Hpiv & _ & Hnodup & Hcols & _).
  destruct (pivot_columns_participants _ _ _ Hlong Hpiv)
    as (labels & _ & [Hfresh _]%NoDup_cons & Hpart).
  simpl in *. apply NoDup_cons in Hnodup as [Hmethod Hnodup].
  eexists. split; [done|].
  split; [apply sorted_StronglySorted|]. split; [done|].
  intros c. pose proof (matrix_columns results m c Hm) as Hc.
  rewrite Hcols, elem_of_cons in Hc. split.
  - intros Hin. destruct (proj1 Hc (or_intror Hin)) as [->|?]; done.
  - intros Hin. destruct (proj2 Hc (or_intror Hin)) as [->|?]; [|done].
    destruct Hin as [?|[_ Hin]]; [done|]. by apply Hpart in Hin.
Qed.

(** C1, as stated, fails: in the matrix of the lazy frame class the column
    ["spark-like"] comes after ["polars"]. *)
Lemma columns_polars_not_last :
  class_frames Demo.env "dataframe" "LazyFrame" Demo.LazyFrame
  = Ok (Demo.frames_of "LazyFrame" Demo.LazyFrame)
  ∧ presence_matrix (Demo.frames_of "LazyFrame" Demo.LazyFrame)
    = Ok Demo.LazyFrame_matrix
  ∧ pl.columns Demo.LazyFrame_matrix = ["Method"; "dask"; "polars"; "spark-like"]
  ∧ pl.columns Demo.LazyFrame_matrix
    ≠ "Method" :: sorted ["dask"; "spark-like"] ++ ["polars"].
Proof. split_and!; [by vm_compute..|done|by vm_compute]. Qed.

Lemma columns_sorted_with_polars_witness :
  ∃ cols,
    pl.columns Demo.LazyFrame_matrix = "Method" :: cols
    ∧ StronglySorted String.le cols
    ∧ NoDup cols
    ∧ ∀ c, c ∈ cols
           ↔ c = "polars"
             ∨ (c ≠ "narwhals"
                ∧ participant (Demo.frames_of "LazyFrame" Demo.LazyFrame) c).
Proof.
  apply (columns_sorted_with_polars
           (Demo.frames_of "LazyFrame" Demo.LazyFrame) Demo.LazyFrame_matrix).
  vm_compute. reflexivity.
Defined.

Lemma NoDup_fmap_inj_on {A B} (f : A → B) (l : list A) x y :
  NoDup (f <$> l) → x ∈ l → y ∈ l → f x = f y → x = y.
Proof.
  induction l as [|a l IH]; intros Hnodup Hx Hy Hxy.
  { by apply elem_of_nil in Hx. }
  rewrite fmap_cons in Hnodup. apply NoDup_cons in Hnodup as [Ha Hnodup].
  apply elem_of_cons in Hx as [->|Hx]; apply elem_of_cons in Hy as [->|Hy].
  - done.
  - destruct Ha. rewrite Hxy. by apply list_elem_of_fmap_2.
  - destruct Ha. rewrite <-Hxy. by apply list_elem_of_fmap_2.
  - by apply IH.
Qed.

(** The rows of the pivot: one per method cell, holding under each
    participant the check mark if the method occurs with it and null if not. *)
Lemma pivot_cell long piv r :
  pl.pivot "Backend" "Method" "supported"
    (pl.with_columns "supported" ":white_check_mark:" long) = Ok piv →
  r ∈ pl.rows piv →
  ∃ k, r !! "Method" = Some k
       ∧ k ∈ (λ r0, pl.value r0 "Method") <$> pl.rows long
       ∧ ∀ c, c ≠ "Method" →
              r !! c
              = if decide (c ∈ pl.columns piv)
                then Some (if decide (occurs (pl.rows long) k c)
                           then Some ":white_check_mark:" else None)
                else None.
Proof.
  intros (Hnodup & Hcols & Hrows)%pivot_Ok Hr. simpl in Hrows, Hcols.
  rewrite Hrows in Hr. apply list_elem_of_fmap in Hr as (k & -> & Hk).
  rewrite elem_of_unique in Hk. simpl in Hk.
  rewrite <-list_fmap_compose in Hk.
  exists k. split; [by rewrite lookup_insert_eq|]. split.
  { apply list_elem_of_fmap in Hk as (r0 & -> & Hr0).
    apply list_elem_of_fmap. exists r0. simpl.
    by rewrite value_with_columns_ne. }
  intros c Hc. rewrite lookup_insert_ne by done.
  set (rows' := <["supported" := Some ":white_check_mark:"]> <$> pl.rows long) in *.
  set (ons := pl.unique ((λ r, pl.value r "Backend") <$> rows')) in *.
  set (first := λ o, head (filter (λ r, pl.value r "Method" = k ∧ pl.value r "Backend" = o) rows')
                      ≫= λ r, pl.value r "supported").
  assert (∀ o, o ∈ ons ↔ ∃ r0, r0 ∈ pl.rows long ∧ pl.value r0 "Backend" = o) as Hons.
  { intros o. unfold ons, rows'. rewrite elem_of_unique, <-list_fmap_compose.
    rewrite list_elem_of_fmap. simpl. split.
    - intros (r0 & -> & Hr0). exists r0. by rewrite value_with_columns_ne.
    - intros (r0 & Hr0 & <-). exists r0. by rewrite value_with_columns_ne. }
  assert (∀ o, first o
             = if decide (Exists (λ r0, pl.value r0 "Method" = k
                                        ∧ pl.value r0 "Backend" = o) (pl.rows long))
               then Some ":white_check_mark:" else None) as Hfirst.
  { intros o. unfold first, rows'. clear. induction (pl.rows long) as [|r0 l IH].
    { by rewrite decide_False by by intros ?%Exists_nil. }
    rewrite fmap_cons, filter_cons, !value_with_columns_ne by done.
    destruct (decide (pl.value r0 "Method" = k ∧ pl.value r0 "Backend" = o)) as [Hr0|Hr0].
    - rewrite decide_True by by left. simpl. unfold pl.value.
      by rewrite lookup_insert_eq.
    - rewrite IH. destruct (decide (Exists _ l)) as [Hl|Hl].
      + by rewrite decide_True by by right.
      + rewrite decide_False; [done|]. by intros [?|?]%Exists_cons. }
  change ((list_to_map ((λ o, (pl.label o, first o)) <$> ons) : pl.row) !! c
          = if decide (c ∈ pl.columns piv)
            then Some (if decide (occurs (pl.rows long) k c)
                       then Some ":white_check_mark:" else None)
            else None).
  apply NoDup_cons in Hnodup as [_ Hnodup]. fold rows' ons in Hnodup.
  rewrite Hcols. fold rows' ons.
  destruct (decide (c ∈ pl.label <$> ons)) as [Hin|Hout].
  - rewrite decide_True by by right.
    apply list_elem_of_fmap in Hin as (o & -> & Ho).
    rewrite (elem_of_list_to_map_1 _ (pl.label o) (first o)); simpl.
    + f_equal. rewrite Hfirst. apply decide_ext. unfold occurs.
      rewrite !Exists_exists. split.
      * intros (r0 & Hr0 & Hm & <-). eauto.
      * intros (r0 & Hr0 & Hm & Hl). exists r0. split_and!; [done..|].
        apply (NoDup_fmap_inj_on pl.label ons); [done| |done..].
        apply Hons. eauto.
    + by rewrite <-list_fmap_compose.
    + apply list_elem_of_fmap. eauto.
  - rewrite decide_False by by intros [?|?]%elem_of_cons.
    apply not_elem_of_list_to_map_1. by rewrite <-list_fmap_compose.
Qed.

Section matrix_rows.
Context (results : list pl.DataFrame) (m : pl.DataFrame).
Hypothesis Hm : presence_matrix results = Ok m.

Let long_rows : list pl.row := mjoin (pl.rows <$> results).

(** Every row of the matrix stands for a method cell of the canonical
    participant, and holds a mark under each backend column. *)
Lemma matrix_row r :
  r ∈ pl.rows m →
  ∃ k, occurs long_rows k "narwhals"
       ∧ pl.value r "Method" = Some (default ":x:" k)
       ∧ ∀ c, c ∈ pl.columns m → c ≠ "Method" → c ≠ "polars" →
              pl.value r c
              = Some (if decide (occurs long_rows k c)
                      then ":white_check_mark:" else ":x:").
Proof.
  intros Hr.
  destruct (presence_matrix_Ok _ _ Hm)
    as (long & piv & Hlong & Hpiv & Hnw & Hnodup & Hcols & Hrows).
  apply concat_Ok in Hlong as [_ Hlong]. unfold long_rows. rewrite <-Hlong.
  simpl in *. rewrite <-Hcols in Hrows. rewrite Hrows in Hr.
  apply list_elem_of_fmap in Hr as (r1 & -> & Hr).
  rewrite merge_sort_Permutation in Hr.
  apply list_elem_of_fmap in Hr as (r2 & -> & Hr).
  apply list_elem_of_fmap in Hr as (r3 & -> & Hr).
  apply list_elem_of_filter in Hr as [Hsome Hr].
  destruct (pivot_cell _ _ _ Hpiv Hr) as (k & Hk & _ & Hcell).
  assert ("Method" ∈ pl.columns m) as Hmethod by (rewrite Hcols; left).
  exists k. split_and!.
  - unfold pl.value in Hsome. rewrite Hcell, decide_True in Hsome by done.
    simpl in Hsome. destruct (decide (occurs _ k "narwhals")); [done|].
    by destruct Hsome.
  - unfold pl.value. rewrite finish_other by done.
    by rewrite lookup_fmap, lookup_delete_ne, Hk.
  - intros c Hc Hne_method Hne_polars.
    rewrite Hcols in Hc. apply elem_of_cons in Hc as [?|Hc]; [done|].
    apply elem_of_sorted, elem_of_app in Hc as [Hc|Hc];
      [|by apply list_elem_of_singleton in Hc].
    apply list_elem_of_filter in Hc as [_ Hc].
    apply list_elem_of_filter in Hc as [Hne_nw Hc].
    unfold pl.value. rewrite finish_other; [|rewrite Hcols|done].
    + rewrite lookup_fmap, lookup_delete_ne, Hcell, decide_True by done.
      simpl. by destruct (decide (occurs _ k c)).
    + right. apply elem_of_sorted, elem_of_app. left.
      by rewrite !list_elem_of_filter.
Qed.

(** Every method cell of the canonical participant has its row. *)
Lemma matrix_row_exists k :
  occurs long_rows k "narwhals" →
  ∃ r, r ∈ pl.rows m ∧ pl.value r "Method" = Some (default ":x:" k).
Proof.
  intros Hk.
  destruct (presence_matrix_Ok _ _ Hm)
    as (long & piv & Hlong & Hpiv & Hnw & Hnodup & Hcols & Hrows).
  apply concat_Ok in Hlong as [_ Hlong]. unfold long_rows in Hk.
  rewrite <-Hlong in Hk. simpl in *. rewrite <-Hcols in Hrows.
  assert ("Method" ∈ pl.columns m) as Hmethod by (rewrite Hcols; left).
  pose proof (pivot_Ok _ _ _ _ _ Hpiv) as (_ & _ & Hpiv_rows). simpl in Hpiv_rows.
  set (row := λ k : option string, <["Method" := k]> (_ : pl.row)) in Hpiv_rows.
  assert (row k ∈ pl.rows piv) as Hin.
  { rewrite Hpiv_rows. apply list_elem_of_fmap_2, elem_of_unique.
    rewrite <-list_fmap_compose. unfold occurs in Hk.
    apply Exists_exists in Hk as (r0 & Hr0 & <- & _).
    apply list_elem_of_fmap. exists r0. simpl.
    by rewrite value_with_columns_ne. }
  destruct (pivot_cell _ _ _ Hpiv Hin) as (k' & Hk' & _ & Hcell).
  assert (k' = k) as ->.
  { unfold row in Hk'. rewrite lookup_insert_eq in Hk'. congruence. }
  eexists. split.
  - rewrite Hrows. apply list_elem_of_fmap_2.
    rewrite merge_sort_Permutation. do 2 apply list_elem_of_fmap_2.
    apply list_elem_of_filter. split; [|exact Hin].
    unfold pl.value. rewrite Hcell, !decide_True by done. simpl. eauto.
  - unfold pl.value. rewrite finish_other by done.
    by rewrite lookup_fmap, lookup_delete_ne, Hk'.
Qed.
End matrix_rows.

(** ** The row-sets of a class *)

Lemma occurs_join (ls : list (list pl.row)) k c :
  occurs (mjoin ls) k c ↔ ∃ l, l ∈ ls ∧ occurs l k c.
Proof.
  unfold occurs. rewrite Exists_exists. setoid_rewrite Exists_exists.
  setoid_rewrite list_elem_of_join. split.
  - intros (r & (l & Hr & Hl) & Hrow). eauto.
  - intros (l & Hl & r & Hr & Hrow). eauto.
Qed.

Lemma Forall2_elem_of_l {A B} (P : A → B → Prop) l k x :
  Forall2 P l k → x ∈ l → ∃ y, y ∈ k ∧ P x y.
Proof.
  induction 1 as [|a b l k Hab _ IH]; [by intros ?%elem_of_nil|].
  intros [->|Hx]%elem_of_cons.
  - exists b. split; [left|done].
  - destruct (IH Hx) as (y & Hy & Hxy). exists y. split; [by right|done].
Qed.

Lemma Forall2_elem_of_r {A B} (P : A → B → Prop) l k y :
  Forall2 P l k → y ∈ k → ∃ x, x ∈ l ∧ P x y.
Proof.
  induction 1 as [|a b l k Hab _ IH]; [by intros ?%elem_of_nil|].
  intros [->|Hy]%elem_of_cons.
  - exists a. split; [left|done].
  - destruct (IH Hy) as (x & Hx & Hxy). exists x. split; [by right|done].
Qed.

Lemma occurs_from_dict backend methods k c :
  occurs (pl.rows (pl.from_dict backend methods)) k c
  ↔ c = backend ∧ ∃ M, M ∈ methods ∧ k = Some M.
Proof.
  unfold occurs. rewrite Exists_exists. simpl.
  setoid_rewrite list_elem_of_fmap. split.
  - intros (r & (M & -> & HM) & <- & <-). unfold pl.value.
    rewrite lookup_insert_eq, lookup_insert_ne, lookup_singleton_eq by done.
    eauto.
  - intros (-> & M & HM & ->). eexists. split; [eauto|]. unfold pl.value.
    by rewrite lookup_insert_eq, lookup_insert_ne, lookup_singleton_eq.
Qed.

Lemma mapM_Ok {A B} (f : A → result B) (l : list A) (k : list B) :
  mapM f l = Ok k ↔ Forall2 (λ a b, f a = Ok b) l k.
Proof.
  revert k. induction l as [|a l IH]; intros k; simpl.
  - split; [intros [= <-]; constructor|by intros ->%Forall2_nil_inv_l].
  - rewrite bind_Ok. split.
    + intros (b & Hb & (k' & Hk' & [= <-])%bind_Ok).
      constructor; [done|]. by apply IH.
    + intros (b & k' & Hb & Hk' & ->)%Forall2_cons_inv_l.
      exists b. split; [done|]. apply bind_Ok. exists k'. split; [by apply IH|done].
Qed.

Lemma backend_names backend :
  backend ∈ BACKENDS →
  name backend ≠ "narwhals" ∧ name backend ≠ "polars" ∧ name backend ≠ "Method".
Proof.
  unfold BACKENDS. rewrite !elem_of_cons, elem_of_nil.
  intros [->|[->|[->|[->|[->|[]]]]]]; done.
Qed.

Lemma backend_names_inj b1 b2 :
  b1 ∈ BACKENDS → b2 ∈ BACKENDS → name b1 = name b2 → b1 = b2.
Proof.
  unfold BACKENDS. rewrite !elem_of_cons, !elem_of_nil.
  intros [->|[->|[->|[->|[->|[]]]]]] [->|[->|[->|[->|[->|[]]]]]]; done.
Qed.

Section class_frames.
Context (env : packages) (module_name nw_class_name : string) (nw_class : object).
Context (frames : list pl.DataFrame).
Hypothesis Hframes : class_frames env module_name nw_class_name nw_class = Ok frames.

Lemma class_frames_Ok df :
  df ∈ frames ↔
    df = pl.from_dict "narwhals" (get_class_methods nw_class)
    ∨ ∃ backend methods_,
        backend ∈ BACKENDS
        ∧ parse_module env module_name (module backend) nw_class_name = Ok methods_
        ∧ df = pl.from_dict (name backend) methods_.
Proof.
  unfold class_frames in Hframes.
  apply bind_Ok in Hframes as (tail & Htail & [= <-]).
  apply mapM_Ok in Htail. rewrite elem_of_cons.
  apply or_iff_compat_l. split.
  - intros Hdf. eapply Forall2_elem_of_r in Hdf as (b & Hb & Hf);
      [|exact Htail].
    apply fmap_Ok in Hf as (ms & Hms & ->). eauto.
  - intros (b & ms & Hb & Hms & ->).
    eapply Forall2_elem_of_l in Hb as (df & Hdf & Hf); [|exact Htail].
    apply fmap_Ok in Hf as (ms' & Hms' & ->). congruence.
Qed.

(** The pairs of the long relation of one class. *)
Lemma occurs_class_frames k c :
  occurs (mjoin (pl.rows <$> frames)) k c ↔
    (c = "narwhals" ∧ ∃ M, M ∈ get_class_methods nw_class ∧ k = Some M)
    ∨ ∃ backend methods_ M,
        backend ∈ BACKENDS
        ∧ parse_module env module_name (module backend) nw_class_name = Ok methods_
        ∧ c = name backend ∧ M ∈ methods_ ∧ k = Some M.
Proof.
  rewrite occurs_join. split.
  - intros (l & (df & -> & Hdf)%list_elem_of_fmap & Hocc).
    apply class_frames_Ok in Hdf as [->|(b & ms & Hb & Hms & ->)];
      apply occurs_from_dict in Hocc as (-> & M & HM & ->).
    + left. eauto.
    + right. exists b, ms, M. eauto.
  - intros [(-> & M & HM & ->)|(b & ms & M & Hb & Hms & -> & HM & ->)].
    + exists (pl.rows (pl.from_dict "narwhals" (get_class_methods nw_class))).
      split; [apply list_elem_of_fmap_2, class_frames_Ok; by left|].
      apply occurs_from_dict. eauto.
    + exists (pl.rows (pl.from_dict (name b) ms)).
      split; [apply list_elem_of_fmap_2, class_frames_Ok; right; eauto|].
      apply occurs_from_dict. eauto.
Qed.
End class_frames.

(** The rows of the matrix of one class are the canonical methods of the
    class. *)
Lemma class_matrix_rows env module_name nw_class_name nw_class frames m M :
  class_frames env module_name nw_class_name nw_class = Ok frames →
  presence_matrix frames = Ok m →
  Some M ∈ method_names m ↔ M ∈ get_class_methods nw_class.
Proof.
  intros Hframes Hm. unfold method_names. rewrite list_elem_of_fmap. split.
  - intros (r & HM & Hr).
    destruct (matrix_row _ _ Hm r Hr) as (k & Hk & Hmethod & _).
    apply (occurs_class_frames _ _ _ _ _ Hframes) in Hk
      as [(_ & M' & HM' & ->)|(b & ms & M' & Hb & _ & Hname & _)].
    + rewrite Hmethod in HM. by injection HM as ->.
    + by apply backend_names in Hb as (? & _).
  - intros HM.
    destruct (matrix_row_exists _ _ Hm (Some M)) as (r & Hr & Hmethod).
    { apply (occurs_class_frames _ _ _ _ _ Hframes). left. eauto. }
    eauto.
Qed.

(** The rows of a matrix built from the row-sets of several classes, as the
    aggregate document of a module is, are the canonical methods of any of
    them. *)
Lemma aggregate_matrix_rows env module_name classes framess m M :
  mapM (λ entry : string * object, class_frames env module_name entry.1 entry.2)
    classes = Ok framess →
  presence_matrix (mjoin framess) = Ok m →
  Some M ∈ method_names m
  ↔ ∃ entry, entry ∈ classes ∧ M ∈ get_class_methods entry.2.
Proof.
  intros Hmap%mapM_Ok Hm.
  assert (∀ k, occurs (mjoin (pl.rows <$> mjoin framess)) k "narwhals"
               ↔ ∃ entry M', entry ∈ classes
                             ∧ M' ∈ get_class_methods entry.2 ∧ k = Some M')
    as Hcanonical.
  { intros k. rewrite occurs_join. split.
    - intros (l & (df & -> & Hdf)%list_elem_of_fmap & Hocc).
      apply list_elem_of_join in Hdf as (frames & Hdf & Hframes).
      eapply Forall2_elem_of_r in Hframes as (entry & Hentry & Hclass);
        [|exact Hmap].
      apply (class_frames_Ok _ _ _ _ _ Hclass) in Hdf
        as [->|(b & ms & Hb & _ & ->)];
        apply occurs_from_dict in Hocc as (Hname & M' & HM' & ->).
      + eauto.
      + by apply backend_names in Hb as (? & _).
    - intros (entry & M' & Hentry & HM' & ->).
      eapply Forall2_elem_of_l in Hentry as (frames & Hframes & Hclass);
        [|exact Hmap].
      exists (pl.rows (pl.from_dict "narwhals" (get_class_methods entry.2))).
      split; [|apply occurs_from_dict; eauto].
      apply list_elem_of_fmap_2, list_elem_of_join. exists frames.
      split; [|done]. apply (class_frames_Ok _ _ _ _ _ Hclass). by left. }
  unfold method_names. rewrite list_elem_of_fmap. split.
  - intros (r & HM & Hr).
    destruct (matrix_row _ _ Hm r Hr) as (k & Hk & Hmethod & _).
    apply Hcanonical in Hk as (entry & M' & Hentry & HM' & ->).
    rewrite Hmethod in HM. injection HM as ->. eauto.
  - intros (entry & Hentry & HM).
    destruct (matrix_row_exists _ _ Hm (Some M)) as (r & Hr & Hmethod);
      [apply Hcanonical; eauto|eauto].
Qed.

(** C4, as amended.  In a matrix built from the row-sets of the classes
    of a module, a method name returned by the resolver of a backend for one
    of the classes is a row only if it is a canonical method of some class of
    the matrix; if it is a canonical method of none of them, the matrix has
    no row for it.  For the matrix of one class alone, as the documents of
    the two frame variants and the aggregate of a module with one class are,
    the canonical methods are those of the class itself. *)
Theorem canonical_filter env module_name classes framess m :
  mapM (λ entry : string * object, class_frames env module_name entry.1 entry.2)
    classes = Ok framess →
  presence_matrix (mjoin framess) = Ok m →
  ∀ entry backend methods_ M,
    entry ∈ classes →
    backend ∈ BACKENDS →
    parse_module env module_name (module backend) entry.1 = Ok methods_ →
    M ∈ methods_ →
    (Some M ∈ method_names m →
     ∃ entry', entry' ∈ classes ∧ M ∈ get_class_methods entry'.2)
    ∧ ((∀ entry', entry' ∈ classes → M ∉ get_class_methods entry'.2) →
       Some M ∉ method_names m)
    ∧ (classes = [entry] →
       (Some M ∈ method_names m → M ∈ get_class_methods entry.2)
       ∧ (M ∉ get_class_methods entry.2 → Some M ∉ method_names m)).
Proof.
  intros Hmap Hm entry backend methods_ M _ _ _ _.
  pose proof (aggregate_matrix_rows _ _ _ _ _ M Hmap Hm) as Hrows.
  split_and!.
  - apply Hrows.
  - intros Hnone (entry' & Hentry' & HM)%Hrows. by apply (Hnone entry').
  - intros ->.
    assert (Some M ∈ method_names m → M ∈ get_class_methods entry.2) as Hone.
    { intros (entry' & ->%list_elem_of_singleton & HM)%Hrows. done. }
    split; [done|]. intros Hnot Hin. by apply Hnot, Hone.
Qed.

(** C4, as stated, fails for the aggregate of a module with two classes.
    The resolver of the backend ["arrow"] returns [mean] for the class
    [Series], of which [mean] is no canonical method; the document of the
    module has a row for [mean] all the same, because the other class of the
    module has such a method, and the row is ticked for ["arrow"]. *)
Lemma canonical_filter_fails_in_aggregate :
  parse_module Sample.env_series "series" "_arrow" "Series"
  = Ok ["len"; "mean"; "pipe"; "implementation"; "to_native"]
  ∧ ("mean" ∉ get_class_methods Demo.Series)
  ∧ ∃ w' d,
      process_module Demo.str_table Demo.Template_render Sample.env_series
        "series" Demo.world = (w', Ok ())
      ∧ rendered w' = [d]
      ∧ doc_file d = destination "series"
      ∧ Some "mean" ∈ method_names (doc_table d)
      ∧ pl.value (Sample.row_of (doc_table d) "mean") "arrow"
        = Some ":white_check_mark:".
Proof.
  split; [vm_compute; reflexivity|].
  split; [apply (bool_decide_unpack _); vm_compute; exact I|].
  eexists _, _. split; [vm_compute; reflexivity|].
  split; [reflexivity|]. split; [vm_compute; reflexivity|].
  split; [apply (bool_decide_unpack _); vm_compute; exact I|].
  vm_compute. reflexivity.
Qed.

(** The two classes of the series module of the counterexample, and the
    method [mean] that the resolver returns for the first of them. *)
Lemma canonical_filter_witness :
  let classes := [("Series", Demo.Series); ("Window", Sample.Window)] in
  let m := Demo.or_empty
             (presence_matrix
                (mjoin (Sample.frames_in Sample.env_series "series" <$> classes))) in
  (Some "mean" ∈ method_names m →
   ∃ entry', entry' ∈ classes ∧ "mean" ∈ get_class_methods entry'.2)
  ∧ ((∀ entry', entry' ∈ classes → "mean" ∉ get_class_methods entry'.2) →
     Some "mean" ∉ method_names m)
  ∧ (classes = [("Series", Demo.Series)] →
     (Some "mean" ∈ method_names m → "mean" ∈ get_class_methods Demo.Series)
     ∧ ("mean" ∉ get_class_methods Demo.Series → Some "mean" ∉ method_names m)).
Proof.
  apply (canonical_filter Sample.env_series "series"
           [("Series", Demo.Series); ("Window", Sample.Window)]
           (Sample.frames_in Sample.env_series "series"
              <$> [("Series", Demo.Series); ("Window", Sample.Window)]))
    with (backend := mkBackend "arrow" "_arrow" EAGER)
         (methods_ := ["len"; "mean"; "pipe"; "implementation"; "to_native"]).
  - vm_compute. reflexivity.
  - vm_compute. reflexivity.
  - left.
  - apply (bool_decide_unpack _). vm_compute. exact I.
  - vm_compute. reflexivity.
  - apply (bool_decide_unpack _). vm_compute. exact I.
Defined.

Lemma matrix_row_absent results m r c :
  presence_matrix results = Ok m →
  c ∉ pl.columns m → r ∈ pl.rows m → pl.value r c = None.
Proof.
  intros (long & piv & _ & _ & _ & _ & Hcols & Hrows)%presence_matrix_Ok Hc.
  simpl in *. rewrite <-Hcols in Hrows. rewrite Hrows, list_elem_of_fmap.
  intros (r' & -> & _). unfold pl.value. by rewrite finish_absent.
Qed.

(** C6, as amended.  When the backend's module for a conceptual module does
    not exist, the resolver returns the empty list and raises nothing; the
    backend then contributes no row, and a matrix built from the classes of
    that module has no column for the backend at all, so no mark, present or
    unsupported, is shown for it. *)
Theorem missing_module_gives_no_column env module_name backend :
  backend ∈ BACKENDS →
  env !! ("narwhals." +:+ module backend +:+ "." +:+ module_name) = None →
  (∀ nw_class_name,
     parse_module env module_name (module backend) nw_class_name = Ok [])
  ∧ ∀ results m,
      (∀ df, df ∈ results →
             ∃ nw_class_name nw_class frames,
               class_frames env module_name nw_class_name nw_class = Ok frames
               ∧ df ∈ frames) →
      presence_matrix results = Ok m →
      (name backend ∉ pl.columns m)
      ∧ ∀ r, r ∈ pl.rows m → pl.value r (name backend) = None.
Proof.
  intros Hb Hnone.
  assert (∀ nw_class_name,
            parse_module env module_name (module backend) nw_class_name = Ok [])
    as Hempty by (intros; by apply parse_module_no_module).
  split; [done|]. intros results m Hresults Hm.
  assert (name backend ∉ pl.columns m) as Hcol.
  { pose proof (backend_names _ Hb) as (Hnw & Hpolars & Hmethod).
    rewrite (matrix_columns _ _ _ Hm).
    intros [?|[?|[_ (df & r & Hdf & Hr & Hlabel)]]]; [done..|].
    destruct (Hresults _ Hdf) as (cn & c & frames & Hframes & Hin).
    apply (class_frames_Ok _ _ _ _ _ Hframes) in Hin
      as [->|(b' & ms & Hb' & Hms & ->)]; simpl in Hr;
      apply list_elem_of_fmap in Hr as (M & -> & HM);
      unfold pl.value in Hlabel; rewrite lookup_insert_eq in Hlabel;
      simpl in Hlabel.
    - by destruct Hnw.
    - apply backend_names_inj in Hlabel as ->; [|done..].
      rewrite Hempty in Hms. injection Hms as <-. by apply elem_of_nil in HM. }
  split; [done|]. intros r Hr. by eapply matrix_row_absent.
Qed.

(** C6, as stated, fails: the data frame module of the backend ["duckdb"]
    does not exist, and the matrix of the class shows no cross for it, as it
    has no such column. *)
Lemma missing_module_shows_no_cross :
  Demo.env !! ("narwhals." +:+ "_duckdb" +:+ "." +:+ "dataframe") = None
  ∧ parse_module Demo.env "dataframe" "_duckdb" "DataFrame" = Ok []
  ∧ class_frames Demo.env "dataframe" "DataFrame" Demo.DataFrame
    = Ok (Demo.frames_of "DataFrame" Demo.DataFrame)
  ∧ presence_matrix (Demo.frames_of "DataFrame" Demo.DataFrame)
    = Ok Demo.DataFrame_matrix
  ∧ ¬ (∀ r, r ∈ pl.rows Demo.DataFrame_matrix → pl.value r "duckdb" = Some ":x:").
Proof.
  split_and!; [by vm_compute..|]. intros Hall.
  destruct (pl.rows Demo.DataFrame_matrix) as [|r rows] eqn:Hrows; [done|].
  specialize (Hall r (list_elem_of_here _ _)).
  injection Hrows as <- _. vm_compute in Hall. done.
Qed.

Lemma missing_module_gives_no_column_witness :
  (∀ nw_class_name, parse_module Demo.env "dataframe" "_duckdb" nw_class_name = Ok [])
  ∧ ∀ results m,
      (∀ df, df ∈ results →
             ∃ nw_class_name nw_class frames,
               class_frames Demo.env "dataframe" nw_class_name nw_class = Ok frames
               ∧ df ∈ frames) →
      presence_matrix results = Ok m →
      ("duckdb" ∉ pl.columns m)
      ∧ ∀ r, r ∈ pl.rows m → pl.value r "duckdb" = None.
Proof.
  apply (missing_module_gives_no_column Demo.env "dataframe"
           (mkBackend "duckdb" "_duckdb" LAZY)).
  - apply (bool_decide_unpack _). vm_compute. exact I.
  - vm_compute. reflexivity.
Defined.

(** ** The properties on the small installation *)

Lemma enumerators_return_public_members_witness :
  (∀ n, n ∈ get_class_methods Demo.ArrowDataFrame
        ↔ is_Some (obj_dir Demo.ArrowDataFrame !! n) ∧ Str.startswith n "_" = false)
  ∧ iter_implemented_methods Demo.ArrowDataFrame
    = filter (λ n, obj_dir Demo.ArrowDataFrame !! n ≠ Some not_implemented)
        (get_class_methods Demo.ArrowDataFrame)
  ∧ (∀ n, n ∈ iter_implemented_methods Demo.ArrowDataFrame
          ↔ n ∈ get_class_methods Demo.ArrowDataFrame
            ∧ obj_dir Demo.ArrowDataFrame !! n ≠ Some not_implemented)
  ∧ Forall (λ n, Str.startswith n "_" = false)
      (get_class_methods Demo.ArrowDataFrame
       ++ iter_implemented_methods Demo.ArrowDataFrame).
Proof. apply (enumerators_return_public_members Demo.ArrowDataFrame). Defined.

Lemma polars_column_always_present_witness :
  "polars" ∈ pl.columns Demo.DataFrame_matrix
  ∧ ∀ r, r ∈ pl.rows Demo.DataFrame_matrix →
         pl.value r "polars" = Some ":white_check_mark:"
         ∧ pl.value r "polars" ≠ Some ":x:".
Proof.
  apply (polars_column_always_present
           (Demo.frames_of "DataFrame" Demo.DataFrame) Demo.DataFrame_matrix).
  vm_compute. reflexivity.
Defined.

Lemma rows_sorted_by_method_witness :
  ∃ names,
    method_names Demo.DataFrame_matrix = Some <$> names
    ∧ StronglySorted String.le names.
Proof.
  apply (rows_sorted_by_method
           (Demo.frames_of "DataFrame" Demo.DataFrame) Demo.DataFrame_matrix).
  vm_compute. reflexivity.
Defined.

(** The module of the backend ["pandas-like"] holds two classes whose names
    end with ["DataFrame"]; the resolver enumerates [EagerDataFrame]. *)
Lemma parse_module_uses_first_match_witness :
  parse_module Demo.env "dataframe" "_pandas_like" "DataFrame"
  = Ok (iter_implemented_methods Demo.EagerDataFrame ++ DIRECTLY_IMPLEMENTED_METHODS
        ++ if decide ("dataframe" = "expr_str") then EXPR_STR_METHODS else [])
  ∧ ((∀ n c,
        mod_dir (PyModule (list_to_map
                   [("PandasLikeDataFrame", Demo.PandasLikeDataFrame);
                    ("EagerDataFrame", Demo.EagerDataFrame)])) !! n = Some c →
        class_matches "DataFrame" c = true → obj_name c = n) →
     ∀ n c,
       mod_dir (PyModule (list_to_map
                  [("PandasLikeDataFrame", Demo.PandasLikeDataFrame);
                   ("EagerDataFrame", Demo.EagerDataFrame)])) !! n = Some c →
       class_matches "DataFrame" c = true →
       String.le (obj_name Demo.EagerDataFrame) (obj_name c)).
Proof.
  apply (parse_module_uses_first_match Demo.env "dataframe" "_pandas_like" "DataFrame"
           (PyModule (list_to_map
              [("PandasLikeDataFrame", Demo.PandasLikeDataFrame);
               ("EagerDataFrame", Demo.EagerDataFrame)]))
           "EagerDataFrame" Demo.EagerDataFrame).
  - vm_compute. reflexivity.
  - vm_compute. reflexivity.
  - vm_compute. reflexivity.
  - intros n c Hn Hc. apply elem_of_map_to_list in Hn. vm_compute in Hn.
    apply elem_of_cons in Hn as [[= -> ->]|Hn]; [vm_compute; exact I|].
    apply elem_of_cons in Hn as [[= -> ->]|Hn]; [vm_compute; exact I|].
    by apply elem_of_nil in Hn.
Defined.

(** C10, as stated, fails: a module that binds its base class
    [EagerDataFrame] under the alias [_Base] next to [PandasLikeDataFrame].
    Both classes match; [EagerDataFrame] is the first in alphabetical order
    of class names, but [getmembers] lists [PandasLikeDataFrame] first, and
    the resolver reports its method [join], which [EagerDataFrame] lacks. *)
Lemma first_match_not_by_class_name :
  mod_dir Sample.pandas_like_aliased !! "_Base" = Some Demo.EagerDataFrame
  ∧ class_matches "DataFrame" Demo.EagerDataFrame = true
  ∧ (∀ n c, mod_dir Sample.pandas_like_aliased !! n = Some c →
            class_matches "DataFrame" c = true →
            String.le (obj_name Demo.EagerDataFrame) (obj_name c))
  ∧ parse_module Sample.env_aliased "dataframe" "_pandas_like" "DataFrame"
    = Ok (iter_implemented_methods Demo.PandasLikeDataFrame
          ++ DIRECTLY_IMPLEMENTED_METHODS)
  ∧ ("join" ∈ iter_implemented_methods Demo.PandasLikeDataFrame
              ++ DIRECTLY_IMPLEMENTED_METHODS)
  ∧ ("join" ∉ iter_implemented_methods Demo.EagerDataFrame
              ++ DIRECTLY_IMPLEMENTED_METHODS).
Proof.
  split_and!.
  - vm_compute. reflexivity.
  - vm_compute. reflexivity.
  - intros n c Hn Hc. apply elem_of_map_to_list in Hn. vm_compute in Hn.
    apply elem_of_cons in Hn as [[= -> ->]|Hn]; [vm_compute; exact I|].
    apply elem_of_cons in Hn as [[= -> ->]|Hn]; [vm_compute; exact I|].
    by apply elem_of_nil in Hn.
  - vm_compute. reflexivity.
  - apply (bool_decide_unpack _). vm_compute. exact I.
  - apply (bool_decide_unpack _). vm_compute. exact I.
Qed.

(** C3, as stated, fails: the backend ["arrow"] has no string-expression
    module, and the resolver's result for it is empty. *)
Lemma expr_str_extras_missing :
  ∃ backend,
    backend ∈ BACKENDS
    ∧ ∃ methods_,
        parse_module Demo.env "expr_str" (module backend) "ExprStringNamespace"
        = Ok methods_
        ∧ ("tail" ∉ methods_) ∧ ("head" ∉ methods_).
Proof.
  exists (mkBackend "arrow" "_arrow" EAGER).
  split; [apply (bool_decide_unpack _); by vm_compute|].
  exists []. split; [by vm_compute|]. split; by intros ?%elem_of_nil.
Qed.

Lemma parse_module_expr_str_witness :
  ∃ methods_,
    parse_module Demo.env "expr_str" "_dask" "ExprStringNamespace" = Ok methods_
    ∧ "tail" ∈ methods_ ∧ "head" ∈ methods_.
Proof.
  apply (proj1 (parse_module_expr_str Demo.env "_dask" "ExprStringNamespace")
           (PyModule {[ "DaskExprStringNamespace" := Demo.DaskExprStringNamespace ]})
           "DaskExprStringNamespace" Demo.DaskExprStringNamespace).
  - vm_compute. reflexivity.
  - vm_compute. reflexivity.
  - vm_compute. reflexivity.
Defined.

(** ** Rendering and the driver *)

Lemma destination_not_template output_filename :
  joinpath DESTINATION_PATH (output_filename +:+ ".md") ≠ TEMPLATE_PATH.
Proof. unfold joinpath, DESTINATION_PATH, TEMPLATE_PATH. cbn. discriminate. Qed.

Lemma write_all_nil w : write_all [] w = w.
Proof. destruct w. unfold write_all. simpl. by rewrite app_nil_r. Qed.

Lemma write_all_app docs1 docs2 w :
  write_all docs2 (write_all docs1 w) = write_all (docs1 ++ docs2) w.
Proof. unfold write_all. simpl. by rewrite foldl_app, app_assoc. Qed.

Lemma write_all_template docs w :
  Forall (λ d, doc_file d ≠ TEMPLATE_PATH) docs →
  files (write_all docs w) !! TEMPLATE_PATH = files w !! TEMPLATE_PATH.
Proof.
  unfold write_all. simpl. generalize (files w).
  induction docs as [|d docs IH]; intros fs Hdocs; [done|].
  apply Forall_cons in Hdocs as [Hd Hdocs]. simpl.
  rewrite IH by done. by rewrite lookup_insert_ne.
Qed.

Lemma write_all_files docs (fs : gmap string string) :
  foldl (λ fs d, <[doc_file d := doc_text d]> fs) fs docs
  = foldl (λ fs d, <[doc_file d := doc_text d]> fs) ∅ docs ∪ fs.
Proof.
  revert fs. induction docs as [|d docs IH]; intros fs; simpl.
  - by rewrite (left_id_L ∅ (∪)).
  - rewrite (IH (<[_ := _]> fs)), (IH (<[_ := _]> ∅)).
    rewrite <-(assoc_L (∪)). f_equal.
    by rewrite insert_union_singleton_l, insert_empty.
Qed.

(** Rendering the same documents a second time leaves the files as they
    are. *)
Lemma write_all_twice docs w :
  files (write_all docs (write_all docs w)) = files (write_all docs w).
Proof.
  unfold write_all. simpl. rewrite write_all_files.
  rewrite (write_all_files docs (files w)).
  by rewrite (assoc_L (∪)), (idemp_L (∪)).
Qed.

Section determined.
Context (t : option string).

Lemma determined_ret {A} (a : A) : template_determined t (mret a).
Proof.
  exists [], (Ok a). split; [constructor|]. intros w _.
  by rewrite write_all_nil.
Qed.

Lemma determined_lift {A} (r : result A) : template_determined t (lift r).
Proof.
  exists [], r. split; [constructor|]. intros w _. by rewrite write_all_nil.
Qed.

Lemma determined_bind {A B} (act : IO A) (k : A → IO B) :
  template_determined t act → (∀ a, template_determined t (k a)) →
  template_determined t (act ≫= k).
Proof.
  intros (docs1 & r1 & Hdocs1 & Hact) Hk. destruct r1 as [a|e].
  - destruct (Hk a) as (docs2 & r2 & Hdocs2 & Hka).
    exists (docs1 ++ docs2), r2. split; [by apply Forall_app|]. intros w Hw.
    unfold mbind, IO_bind. rewrite (Hact w Hw).
    rewrite Hka
      by (rewrite write_all_template; [done|];
          eapply Forall_impl; [exact Hdocs1|]; by intros d [? _]).
    by rewrite write_all_app.
  - exists docs1, (Raise e). split; [done|]. intros w Hw.
    unfold mbind, IO_bind. by rewrite (Hact w Hw).
Qed.

Lemma determined_bind_lift {A B} (r : result A) (k : A → IO B) :
  (∀ a, r = Ok a → template_determined t (k a)) →
  template_determined t (lift r ≫= k).
Proof.
  intros Hk. destruct r as [a|e].
  - destruct (Hk a eq_refl) as (docs & r & Hdocs & Hka).
    exists docs, r. split; [done|]. intros w Hw.
    unfold mbind, IO_bind, lift. by apply Hka.
  - exists [], (Raise e). split; [constructor|]. intros w _.
    unfold mbind, IO_bind, lift. by rewrite write_all_nil.
Qed.

Lemma determined_for {A S} (l : list A) (body : S → A → IO S) (s : S) :
  (∀ s x, template_determined t (body s x)) →
  template_determined t (for_ l body s).
Proof.
  intros Hbody. revert s. induction l as [|x l IH]; intros s; simpl.
  - apply determined_ret.
  - apply determined_bind; [apply Hbody|apply IH].
Qed.

Lemma determined_read_template : template_determined t (read_text TEMPLATE_PATH).
Proof.
  exists [], (match t with Some text => Ok text | None => Raise FileNotFoundError end).
  split; [constructor|]. intros w Hw. unfold read_text.
  rewrite Hw, write_all_nil. by destruct t.
Qed.

Lemma determined_write {A} (d : Document) (a : A) :
  builder_document d →
  template_determined t (write_text (doc_file d) (doc_text d);; trace d;; mret a).
Proof.
  intros Hd. exists [d], (Ok a). split; [by constructor|]. by intros w _.
Qed.

Context (str_table : pl.DataFrame → string).
Context (Template_render : string → string → string → result string).
Context (env : packages).

Lemma determined_render results title output_filename :
  template_determined t
    (render_table_and_write_to_output str_table Template_render
       results title output_filename).
Proof.
  unfold render_table_and_write_to_output.
  apply determined_bind_lift. intros m Hm.
  apply determined_bind; [apply determined_read_template|]. intros stream.
  apply determined_bind; [apply determined_lift|]. intros new_content.
  apply (determined_write
           (mkDocument (joinpath DESTINATION_PATH (output_filename +:+ ".md"))
              title m new_content)).
  split; [apply destination_not_template|]. by exists results.
Qed.

Lemma determined_class_step module_name vars entry :
  template_determined t
    (class_step str_table Template_render env module_name vars entry).
Proof.
  unfold class_step. destruct vars as [results processed_classes].
  destruct entry as [nw_class_name nw_class].
  case_decide; [apply determined_ret|].
  apply determined_bind; [apply determined_lift|]. intros frames.
  case_decide; [|apply determined_ret].
  apply determined_bind; [apply determined_render|]. intros _.
  apply determined_ret.
Qed.

Lemma determined_process_module module_name :
  template_determined t
    (process_module str_table Template_render env module_name).
Proof.
  unfold process_module.
  apply determined_bind; [apply determined_lift|]. intros narwhals_module_.
  apply determined_bind;
    [apply determined_for; intros; apply determined_class_step|].
  intros [results processed_classes].
  case_decide; [apply determined_ret|].
  apply determined_bind; [apply determined_render|]. intros _.
  apply determined_ret.
Qed.

Lemma determined_builder :
  template_determined t
    (get_backend_completeness_table str_table Template_render env).
Proof.
  unfold get_backend_completeness_table.
  apply determined_for. intros; apply determined_process_module.
Qed.
End determined.

(** C9. The builder is a function of the modules and of the template: from
    two worlds that hold the same template it renders the same documents and
    ends the same way, and when it is run a second time it renders them
    again and leaves every file as the first run left it. *)
Theorem builder_idempotent
    (str_table : pl.DataFrame → string)
    (Template_render : string → string → string → result string)
    (env : packages) (w w' : World) :
  files w !! TEMPLATE_PATH = files w' !! TEMPLATE_PATH →
  let run := get_backend_completeness_table str_table Template_render env in
  ∃ docs r,
    run w = (write_all docs w, r)
    ∧ run w' = (write_all docs w', r)
    ∧ run (write_all docs w) = (write_all docs (write_all docs w), r)
    ∧ files (write_all docs (write_all docs w)) = files (write_all docs w).
Proof.
  intros Hsame run.
  destruct (determined_builder (files w !! TEMPLATE_PATH)
              str_table Template_render env) as (docs & r & Hdocs & Hrun).
  exists docs, r. split_and!.
  - by apply Hrun.
  - by apply Hrun.
  - apply Hrun. apply write_all_template.
    eapply Forall_impl; [exact Hdocs|]. by intros d [? _].
  - apply write_all_twice.
Qed.

(** Every document the builder renders holds a matrix of the builder, so
    that what holds of every matrix holds of every rendered table. *)
Lemma builder_renders_matrices
    (str_table : pl.DataFrame → string)
    (Template_render : string → string → string → result string)
    (env : packages) (w w' : World) (r : result unit) :
  get_backend_completeness_table str_table Template_render env w = (w', r) →
  ∃ docs,
    rendered w' = rendered w ++ docs
    ∧ Forall (λ d, ∃ results, presence_matrix results = Ok (doc_table d)) docs.
Proof.
  intros Hrun.
  destruct (determined_builder (files w !! TEMPLATE_PATH)
              str_table Template_render env) as (docs & r' & Hdocs & Hdet).
  rewrite Hdet in Hrun by done. injection Hrun as <- _.
  exists docs. split; [done|].
  eapply Forall_impl; [exact Hdocs|]. by intros d [_ ?].
Qed.

Lemma builder_idempotent_witness :
  let run := get_backend_completeness_table
               Demo.str_table Demo.Template_render Demo.env in
  ∃ docs r,
    run Demo.world = (write_all docs Demo.world, r)
    ∧ run Demo.stale_world = (write_all docs Demo.stale_world, r)
    ∧ run (write_all docs Demo.world)
      = (write_all docs (write_all docs Demo.world), r)
    ∧ files (write_all docs (write_all docs Demo.world))
      = files (write_all docs Demo.world).
Proof.
  apply (builder_idempotent Demo.str_table Demo.Template_render Demo.env
           Demo.world Demo.stale_world).
  vm_compute. reflexivity.
Defined.

Lemma IO_bind_Ok {A B} (act : IO A) (k : A → IO B) w w' b :
  (act ≫= k) w = (w', Ok b) ↔ ∃ w1 a, act w = (w1, Ok a) ∧ k a w1 = (w', Ok b).
Proof.
  unfold mbind, IO_bind. destruct (act w) as [w1 [a|e]]; split.
  - eauto.
  - by intros (? & ? & [= -> ->] & ?).
  - done.
  - by intros (? & ? & ? & _).
Qed.

Lemma lift_Ok {A} (r : result A) w w' a :
  lift r w = (w', Ok a) ↔ r = Ok a ∧ w' = w.
Proof. unfold lift. split; [by intros [= -> ->]|by intros [-> ->]]. Qed.

Lemma ret_Ok {A} (a b : A) (w w' : World) :
  mret (M := IO) a w = (w', Ok b) ↔ a = b ∧ w' = w.
Proof. unfold mret, IO_ret. split; [by intros [= -> ->]|by intros [-> ->]]. Qed.

Section driver.
Context (str_table : pl.DataFrame → string).
Context (Template_render : string → string → string → result string).
Context (env : packages).

(** A call of the renderer that returns has rendered one document, under the
    given title and file name, whose table is the matrix of the row-sets. *)
Lemma render_Ok results title output_filename w w' table :
  render_table_and_write_to_output str_table Template_render
    results title output_filename w = (w', Ok table) →
  ∃ d, rendered w' = rendered w ++ [d]
       ∧ doc_title d = title
       ∧ doc_file d = joinpath DESTINATION_PATH (output_filename +:+ ".md")
       ∧ presence_matrix results = Ok (doc_table d).
Proof.
  unfold render_table_and_write_to_output.
  intros (w1 & m & [Hm ->]%lift_Ok & H)%IO_bind_Ok.
  apply IO_bind_Ok in H as (w2 & stream & Hread & H).
  apply IO_bind_Ok in H as (w3 & new_content & [Hcontent ->]%lift_Ok & H).
  unfold read_text in Hread. destruct (files w !! TEMPLATE_PATH); [|done].
  injection Hread as <- _.
  apply IO_bind_Ok in H as (w4 & [] & [= <-] & H).
  apply IO_bind_Ok in H as (w5 & [] & [= <-] & [_ ->]%ret_Ok).
  eexists. by split_and!.
Qed.

Lemma class_step_Ok module_name results processed_classes entry w w'
    results' processed_classes' :
  class_step str_table Template_render env module_name
    (results, processed_classes) entry w
  = (w', Ok (results', processed_classes')) →
  if decide (entry.1 ∈ EXCLUDE_CLASSES)
  then w' = w ∧ results' = results ∧ processed_classes' = processed_classes
  else ∃ frames,
         class_frames env module_name entry.1 entry.2 = Ok frames
         ∧ results' = results ++ frames
         ∧ if decide (is_frame entry)
           then processed_classes' = processed_classes ∪ {[ entry.1 ]}
                ∧ ∃ d, rendered w' = rendered w ++ [d]
                       ∧ doc_title d = entry.1
                       ∧ presence_matrix frames = Ok (doc_table d)
           else w' = w ∧ processed_classes' = processed_classes.
Proof.
  unfold class_step. destruct entry as [nw_class_name nw_class]. simpl.
  unfold is_frame. simpl.
  destruct (decide (nw_class_name ∈ EXCLUDE_CLASSES)) as [Hexcl|Hexcl];
    [by intros [[= -> ->] ->]%ret_Ok|].
  intros (w1 & frames & [Hframes ->]%lift_Ok & Hk)%IO_bind_Ok.
  exists frames.
  destruct (decide (nw_class_name ∈ ({[ "DataFrame"; "LazyFrame" ]} : gset string)))
    as [Hframe|Hframe].
  - apply IO_bind_Ok in Hk as (w2 & table & Hrender & [[= -> ->] ->]%ret_Ok).
    apply render_Ok in Hrender as (d & Hd & Htitle & _ & Hm).
    split_and!; [done..|]. eauto.
  - by apply ret_Ok in Hk as [[= -> ->] ->].
Qed.
End driver.

Section module_loop.
Context (str_table : pl.DataFrame → string).
Context (Template_render : string → string → string → result string).
Context (env : packages) (module_name : string).

(** What the loop over the classes of a module has done when it ends. *)
Lemma class_loop_Ok l results processed_classes w w' results' processed_classes' :
  for_ l (class_step str_table Template_render env module_name)
    (results, processed_classes) w
  = (w', Ok (results', processed_classes')) →
  let classes := filter (λ entry, entry.1 ∉ EXCLUDE_CLASSES) l in
  ∃ docs framess,
    rendered w' = rendered w ++ docs
    ∧ doc_title <$> docs = (filter is_frame classes).*1
    ∧ processed_classes'
      = processed_classes ∪ list_to_set (filter is_frame classes).*1
    ∧ mapM (λ entry, class_frames env module_name entry.1 entry.2) classes
      = Ok framess
    ∧ results' = results ++ mjoin framess.
Proof.
  revert results processed_classes w.
  induction l as [|entry l IH]; intros results processed_classes w Hloop; simpl in *.
  { apply ret_Ok in Hloop as [[= <- <-] ->]. exists [], [].
    rewrite !app_nil_r. split_and!; [done..| |done|done].
    by rewrite (right_id_L ∅ (∪)). }
  apply IO_bind_Ok in Hloop as (w1 & [results1 processed1] & Hstep & Hloop).
  apply class_step_Ok in Hstep.
  destruct (IH _ _ _ Hloop) as (docs & framess & Hdocs & Htitles & Hproc & Hmap & Hres).
  rewrite filter_cons.
  destruct (decide (entry.1 ∈ EXCLUDE_CLASSES)) as [Hexcl|Hexcl].
  { destruct Hstep as (-> & -> & ->).
    rewrite decide_False by (intros Hnot; by apply Hnot).
    by exists docs, framess. }
  rewrite decide_True by done.
  destruct Hstep as (frames & Hframes & -> & Hstep).
  rewrite filter_cons. destruct (decide (is_frame entry)) as [Hframe|Hframe].
  - destruct Hstep as (-> & d & Hd & Htitle & _).
    exists (d :: docs), (frames :: framess). split_and!.
    + rewrite Hdocs, Hd, <-app_assoc. done.
    + rewrite !fmap_cons. by f_equal.
    + rewrite Hproc, fmap_cons, list_to_set_cons. by rewrite (assoc_L (∪)).
    + apply mapM_Ok. constructor; [done|]. by apply mapM_Ok.
    + rewrite Hres. simpl. by rewrite app_assoc.
  - destruct Hstep as (-> & ->).
    exists docs, (frames :: framess). split_and!; [done..| |].
    + apply mapM_Ok. constructor; [done|]. by apply mapM_Ok.
    + rewrite Hres. simpl. by rewrite app_assoc.
Qed.

End module_loop.

(** Both frame variants were rendered on their own exactly when both are
    among the classes. *)
Lemma both_frames_processed (classes : list (string * object)) :
  (∅ ∪ list_to_set (filter is_frame classes).*1 : gset string)
    = {[ "DataFrame"; "LazyFrame" ]}
  ↔ "DataFrame" ∈ classes.*1 ∧ "LazyFrame" ∈ classes.*1.
Proof.
  rewrite (left_id_L ∅ (∪)).
  assert (∀ x : string, x ∈ (list_to_set (filter is_frame classes).*1 : gset string)
               ↔ x ∈ classes.*1 ∧ x ∈ ({[ "DataFrame"; "LazyFrame" ]} : gset string))
    as Hin.
  { intros x. rewrite elem_of_list_to_set, !list_elem_of_fmap. split.
    - intros (e & -> & [He Hin]%list_elem_of_filter). eauto.
    - intros [(e & -> & He) Hx]. exists e. split; [done|].
      by apply list_elem_of_filter. }
  split.
  - intros Heq. split; apply Hin; rewrite Heq; set_solver.
  - intros [Hdf Hlf]. apply set_eq. intros x. rewrite Hin.
    split; [tauto|]. intros Hx. split; [|done].
    apply elem_of_union in Hx as [->%elem_of_singleton| ->%elem_of_singleton]; done.
Qed.

(** C2, as amended.  The aggregate document of a module is skipped if and
    only if both frame variants, [DataFrame] and [LazyFrame], are among the
    classes of the module, whether or not it has other classes; otherwise one
    aggregate document is rendered after the individual ones, under the title
    of the module, from the row-sets of all the classes of the module. *)
Theorem aggregate_skipped_iff_both_frames
    (str_table : pl.DataFrame → string)
    (Template_render : string → string → string → result string)
    (env : packages) (module_name : string) (m : py_module) (w w' : World) :
  env !! ("narwhals." +:+ module_name) = Some m →
  process_module str_table Template_render env module_name w = (w', Ok ()) →
  let classes := module_classes m ("narwhals." +:+ module_name) in
  ∃ docs,
    rendered w' = rendered w ++ docs
    ∧ if decide ("DataFrame" ∈ classes.*1 ∧ "LazyFrame" ∈ classes.*1)
      then doc_title <$> docs = (filter is_frame classes).*1
      else ∃ aggregate framess,
             doc_title <$> docs = (filter is_frame classes).*1 ++ [doc_title aggregate]
             ∧ last docs = Some aggregate
             ∧ doc_title aggregate = Str.replace "_" "." (Str.capitalize module_name)
             ∧ doc_file aggregate = joinpath DESTINATION_PATH (module_name +:+ ".md")
             ∧ mapM (λ entry, class_frames env module_name entry.1 entry.2) classes
               = Ok framess
             ∧ presence_matrix (mjoin framess) = Ok (doc_table aggregate).
Proof.
  intros Hm Hrun classes. unfold process_module in Hrun.
  apply IO_bind_Ok in Hrun as (w0 & m' & [Himport ->]%lift_Ok & Hrun).
  unfold import_module in Himport. rewrite Hm in Himport. injection Himport as <-.
  apply IO_bind_Ok in Hrun as (w1 & [results processed_classes] & Hloop & Hrun).
  apply class_loop_Ok in Hloop
    as (docs & framess & Hdocs & Htitles & Hproc & Hmap & Hres).
  fold (module_classes m ("narwhals." +:+ module_name)) in Htitles, Hproc, Hmap.
  fold classes in Htitles, Hproc, Hmap. simpl in Hres. subst results.
  pose proof (both_frames_processed classes) as Hboth. rewrite <-Hproc in Hboth.
  destruct (decide (processed_classes = {[ "DataFrame"; "LazyFrame" ]}))
    as [Hskip|Hrender].
  - apply ret_Ok in Hrun as [_ ->]. exists docs. split; [done|].
    by rewrite decide_True by by apply Hboth.
  - apply IO_bind_Ok in Hrun as (w2 & table & Hagg & [_ ->]%ret_Ok).
    apply render_Ok in Hagg as (d & Hd & Htitle & Hfile & Hmatrix).
    exists (docs ++ [d]). split; [by rewrite Hd, Hdocs, <-app_assoc|].
    rewrite decide_False by (intros ?; by apply Hrender, Hboth).
    exists d, framess. rewrite fmap_app, Htitles, last_snoc. by split_and!.
Qed.

(** C2, as stated, fails: a data frame module with a third class of its own
    gets the two individual documents and no aggregate. *)
Lemma aggregate_skipped_despite_other_class :
  (module_classes Demo.narwhals_dataframe_extra "narwhals.dataframe").*1
  = ["DataFrame"; "GroupBy"; "LazyFrame"]
  ∧ ∃ w',
      process_module Demo.str_table Demo.Template_render Demo.env_extra
        "dataframe" Demo.world = (w', Ok ())
      ∧ doc_title <$> rendered w' = ["DataFrame"; "LazyFrame"].
Proof.
  split; [by vm_compute|].
  eexists. split; [vm_compute; reflexivity|]. by vm_compute.
Qed.

Lemma aggregate_skipped_iff_both_frames_witness :
  let classes := module_classes Demo.narwhals_dataframe_extra
                   ("narwhals." +:+ "dataframe") in
  ∃ docs,
    rendered
      (process_module Demo.str_table Demo.Template_render Demo.env_extra
         "dataframe" Demo.world).1
    = rendered Demo.world ++ docs
    ∧ if decide ("DataFrame" ∈ classes.*1 ∧ "LazyFrame" ∈ classes.*1)
      then doc_title <$> docs = (filter is_frame classes).*1
      else ∃ aggregate framess,
             doc_title <$> docs = (filter is_frame classes).*1 ++ [doc_title aggregate]
             ∧ last docs = Some aggregate
             ∧ doc_title aggregate = Str.replace "_" "." (Str.capitalize "dataframe")
             ∧ doc_file aggregate = joinpath DESTINATION_PATH ("dataframe" +:+ ".md")
             ∧ mapM (λ entry, class_frames Demo.env_extra "dataframe" entry.1 entry.2)
                 classes = Ok framess
             ∧ presence_matrix (mjoin framess) = Ok (doc_table aggregate).
Proof.
  apply (aggregate_skipped_iff_both_frames Demo.str_table Demo.Template_render
           Demo.env_extra "dataframe" Demo.narwhals_dataframe_extra Demo.world).
  - vm_compute. reflexivity.
  - vm_compute. reflexivity.
Defined.

(** The example of the specification: a class with the methods a, b and c,
    and one backend that implements a only. *)
Example matrix_of_three_methods :
  (λ m, (pl.columns m, (λ r, (λ c, pl.value r c) <$> pl.columns m) <$> pl.rows m))
    <$> presence_matrix
          [pl.from_dict "narwhals" ["c"; "a"; "b"]; pl.from_dict "arrow" ["a"]]
  = Ok (["Method"; "arrow"; "polars"],
        [[Some "a"; Some ":white_check_mark:"; Some ":white_check_mark:"];
         [Some "b"; Some ":x:"; Some ":white_check_mark:"];
         [Some "c"; Some ":x:"; Some ":white_check_mark:"]]).
Proof. vm_compute. reflexivity. Qed.

(** ** Ties

    When no row-set holds a null method cell, as is the case for frames built
    by [pl.from_dict], no two rows of the matrix share a method name: the
    order of the rows does not depend on how the sort breaks ties. *)

Lemma matrix_method_names_NoDup results m :
  (∀ df r, df ∈ results → r ∈ pl.rows df → is_Some (pl.value r "Method")) →
  presence_matrix results = Ok m →
  NoDup (method_names m).
Proof.
  intros Hnonnull Hm.
  destruct (presence_matrix_Ok _ _ Hm)
    as (long & piv & Hlong & Hpiv & _ & _ & Hcols & Hrows).
  apply concat_Ok in Hlong as [_ Hlong].
  pose proof (pivot_Ok _ _ _ _ _ Hpiv) as (_ & _ & Hpiv_rows).
  simpl in *. rewrite <-Hcols in Hrows.
  assert ("Method" ∈ pl.columns m) as Hmethod by (rewrite Hcols; left).
  unfold method_names. rewrite Hrows, <-list_fmap_compose.
  rewrite merge_sort_Permutation, <-!list_fmap_compose.
  eapply sublist_NoDup; [|apply fmap_sublist, sublist_filter].
  rewrite Hpiv_rows, <-list_fmap_compose.
  apply NoDup_fmap_2_strong; [|apply NoDup_unique].
  intros k1 k2 Hk1 Hk2. simpl. unfold pl.value.
  rewrite !finish_other by done.
  rewrite !lookup_fmap, !lookup_delete_ne, !lookup_insert_eq by done. simpl.
  assert (∀ k, k ∈ pl.unique ((λ r, pl.value r "Method")
                 <$> (<["supported" := Some ":white_check_mark:"]> <$> pl.rows long)) →
               is_Some k) as Hsome.
  { intros k. rewrite elem_of_unique, <-list_fmap_compose, list_elem_of_fmap.
    intros (r & -> & Hr). simpl. rewrite value_with_columns_ne by done.
    rewrite Hlong in Hr. apply list_elem_of_join in Hr as (l & Hr & Hl).
    apply list_elem_of_fmap in Hl as (df & -> & Hdf). eauto. }
  destruct (Hsome _ Hk1) as [a ->], (Hsome _ Hk2) as [b ->]. simpl. congruence.
Qed.

Lemma matrix_rows_order_unique results m l :
  (∀ df r, df ∈ results → r ∈ pl.rows df → is_Some (pl.value r "Method")) →
  presence_matrix results = Ok m →
  l ≡ₚ pl.rows m → StronglySorted (pl.by_column "Method") l →
  l = pl.rows m.
Proof.
  intros Hnonnull Hm Hperm Hsorted.
  pose proof (matrix_method_names_NoDup _ _ Hnonnull Hm) as Hnodup.
  apply (StronglySorted_unique_strong (pl.by_column "Method")); [|done| |done].
  - intros r1 r2 Hr1 Hr2 H12 H21. rewrite Hperm in Hr1.
    apply (NoDup_fmap_inj_on (λ r, pl.value r "Method") (pl.rows m)); [done..|].
    unfold pl.by_column in *.
    destruct (pl.value r1 "Method") as [a|], (pl.value r2 "Method") as [b|];
      simpl in *; try done.
    f_equal. by apply (anti_symm String.le).
  - destruct (presence_matrix_Ok _ _ Hm) as (long & piv & _ & _ & _ & _ & Hcols & Hrows).
    simpl in *. rewrite <-Hcols in Hrows.
    assert ("Method" ∈ pl.columns m) as Hmethod by (rewrite Hcols; left).
    rewrite Hrows.
    apply (StronglySorted_fmap _ (pl.by_column "Method") (pl.by_column "Method"));
      [|apply StronglySorted_merge_sort; apply _].
    intros r1 r2 Hle. unfold pl.by_column, pl.value.
    by rewrite !finish_other by done.
Qed.

(** ** Classes bound under their own names *)

(** When every object of the backend's module is bound under its own name,
    the first match is the one whose class name is least. *)
Lemma parse_module_first_class_name
    (env : packages) (module_name backend nw_class_name : string)
    (m : py_module) (c0 : object) :
  env !! ("narwhals." +:+ backend +:+ "." +:+ module_name) = Some m →
  (∀ n c, mod_dir m !! n = Some c → obj_name c = n) →
  mod_dir m !! obj_name c0 = Some c0 →
  class_matches nw_class_name c0 = true →
  (∀ n c, mod_dir m !! n = Some c → class_matches nw_class_name c = true →
          String.le (obj_name c0) (obj_name c)) →
  parse_module env module_name backend nw_class_name
  = Ok (iter_implemented_methods c0 ++ DIRECTLY_IMPLEMENTED_METHODS
        ++ if decide (module_name = "expr_str") then EXPR_STR_METHODS else []).
Proof.
  intros Hm Hnames Hc0 Hmatch Hleast.
  destruct (getmembers_head (mod_dir m) (class_matches nw_class_name)
              (obj_name c0) c0) as [rest Hhead]; [done..| |].
  { intros n c Hn Hc. rewrite <-(Hnames n c Hn). by eapply Hleast. }
  by rewrite (parse_module_class _ _ _ _ m (obj_name c0, c0) rest).
Qed.

(** * Further properties *)

(** ** Enumerators and resolver *)

(** X1. Both enumerators list the names in ascending order, each once. *)
Theorem enumerators_ascending (kls : object) :
  StronglySorted String.le (get_class_methods kls)
  ∧ NoDup (get_class_methods kls)
  ∧ StronglySorted String.le (iter_implemented_methods kls)
  ∧ NoDup (iter_implemented_methods kls).
Proof.
  destruct (get_class_methods_sorted kls) as [Hsorted Hnodup].
  split; [done|]. split; [done|].
  rewrite iter_implemented_methods_filter. split.
  - clear Hnodup. induction Hsorted as [|n l Hl IH Hall]; [constructor|].
    rewrite filter_cons. destruct (decide _); [|done].
    constructor; [done|]. apply Forall_forall. intros n' Hn'%list_elem_of_filter.
    rewrite Forall_forall in Hall. apply Hall, Hn'.
  - eapply sublist_NoDup; [exact Hnodup|apply sublist_filter].
Qed.

(** X2. When the backend's module holds a matching class, the resolver
    reports exactly the public members of the first match that are not
    [not_implemented] sentinels, the generic methods, and for [expr_str] the
    two aliases: a generic method is reported even where the class marks it
    as not implemented or lacks it. *)
Theorem parse_module_reports
    (env : packages) (module_name backend nw_class_name : string)
    (m : py_module) (n0 : string) (c0 : object) :
  env !! ("narwhals." +:+ backend +:+ "." +:+ module_name) = Some m →
  mod_dir m !! n0 = Some c0 →
  class_matches nw_class_name c0 = true →
  (∀ n c, mod_dir m !! n = Some c → class_matches nw_class_name c = true →
          String.le n0 n) →
  ∃ methods_,
    parse_module env module_name backend nw_class_name = Ok methods_
    ∧ ∀ M, M ∈ methods_
           ↔ (obj_dir c0 !! M = Some implemented ∧ Str.startswith M "_" = false)
             ∨ M ∈ DIRECTLY_IMPLEMENTED_METHODS
             ∨ (module_name = "expr_str" ∧ M ∈ EXPR_STR_METHODS).
Proof.
  intros Hm Hn0 Hc0 Hleast.
  destruct (getmembers_head (mod_dir m) (class_matches nw_class_name) n0 c0)
    as [rest Hhead]; [done..|].
  eexists. split; [by apply (parse_module_class _ _ _ _ m (n0, c0) rest)|].
  intros M. cbn [snd]. rewrite !elem_of_app.
  rewrite iter_implemented_methods_filter, list_elem_of_filter.
  rewrite elem_of_get_class_methods.
  assert ((obj_dir c0 !! M ≠ Some not_implemented
           ∧ is_Some (obj_dir c0 !! M) ∧ Str.startswith M "_" = false)
          ↔ obj_dir c0 !! M = Some implemented ∧ Str.startswith M "_" = false)
    as ->.
  { destruct (obj_dir c0 !! M) as [[]|].
    - split; [by intros (? & _)|by intros [? _]].
    - split; [by intros (_ & _ & ?)|].
      intros [_ ?]. split_and!; [done|by eexists|done].
    - split; [by intros (_ & [? ?] & _)|by intros [? _]]. }
  destruct (decide (module_name = "expr_str")) as [->|Hne].
  - intuition auto.
  - rewrite elem_of_nil. tauto.
Qed.

Lemma parse_module_reports_witness :
  ∃ methods_,
    parse_module Sample.env_dask "dataframe" "_dask" "LazyFrame" = Ok methods_
    ∧ ∀ M, M ∈ methods_
           ↔ (obj_dir Sample.DaskLazyFrame !! M = Some implemented
              ∧ Str.startswith M "_" = false)
             ∨ M ∈ DIRECTLY_IMPLEMENTED_METHODS
             ∨ ("dataframe" = "expr_str" ∧ M ∈ EXPR_STR_METHODS).
Proof.
  apply (parse_module_reports Sample.env_dask "dataframe" "_dask" "LazyFrame"
           Sample.dask_dataframe "DaskLazyFrame" Sample.DaskLazyFrame).
  - vm_compute. reflexivity.
  - vm_compute. reflexivity.
  - vm_compute. reflexivity.
  - intros n c Hn Hc. apply elem_of_map_to_list in Hn. vm_compute in Hn.
    apply elem_of_cons in Hn as [[= -> ->]|Hn]; [vm_compute; exact I|].
    by apply elem_of_nil in Hn.
Defined.

(** X3. Objects that are not classes, protocol classes (prefix [Compliant])
    and interchange classes (prefix [DuckDBInterchange]) are never taken for
    the backend's class: a module that holds nothing else for the conceptual
    class gives the empty list, without the generic methods. *)
Theorem parse_module_skips_protocols
    (env : packages) (module_name backend nw_class_name : string) (m : py_module) :
  env !! ("narwhals." +:+ backend +:+ "." +:+ module_name) = Some m →
  (∀ n c, mod_dir m !! n = Some c →
          isclass c = true → Str.endswith (obj_name c) nw_class_name = true →
          Str.startswith (obj_name c) "Compliant" = true
          ∨ Str.startswith (obj_name c) "DuckDBInterchange" = true) →
  parse_module env module_name backend nw_class_name = Ok [].
Proof.
  intros Hm Hall. apply (parse_module_no_class _ _ _ _ m); [done|].
  apply getmembers_nil. intros n c Hn. unfold class_matches.
  destruct (isclass c) eqn:Hclass; [|done].
  destruct (Str.endswith (obj_name c) nw_class_name) eqn:Hends; [|done].
  destruct (Hall n c Hn Hclass Hends) as [-> | ->]; simpl; [done|].
  by rewrite andb_false_r.
Qed.

Lemma parse_module_skips_protocols_witness :
  parse_module Sample.env_protocols "dataframe" "_duckdb" "DataFrame" = Ok [].
Proof.
  apply (parse_module_skips_protocols Sample.env_protocols "dataframe" "_duckdb"
           "DataFrame" Sample.protocols).
  - vm_compute. reflexivity.
  - intros n c Hn Hclass Hends. apply elem_of_map_to_list in Hn.
    vm_compute in Hn.
    repeat (apply elem_of_cons in Hn as [[= -> ->]|Hn];
            [first [by left; vm_compute | by right; vm_compute
                   | by vm_compute in Hclass]|]).
    by apply elem_of_nil in Hn.
Defined.

(** ** Matrices *)

Lemma matrix_rows_sorted results m :
  presence_matrix results = Ok m →
  StronglySorted (pl.by_column "Method") (pl.rows m).
Proof.
  intros (long & piv & _ & _ & _ & _ & Hcols & Hrows)%presence_matrix_Ok.
  simpl in *. rewrite <-Hcols in Hrows.
  assert ("Method" ∈ pl.columns m) as Hmethod by (rewrite Hcols; left).
  rewrite Hrows.
  apply (StronglySorted_fmap _ (pl.by_column "Method") (pl.by_column "Method"));
    [|apply StronglySorted_merge_sort; apply _].
  intros r1 r2 Hle. unfold pl.by_column, pl.value.
  by rewrite !finish_other by done.
Qed.

Lemma matrix_row_polars results m r :
  presence_matrix results = Ok m → r ∈ pl.rows m →
  pl.value r "polars" = Some ":white_check_mark:".
Proof.
  intros (long & piv & _ & _ & _ & _ & Hcols & Hrows)%presence_matrix_Ok.
  simpl in *. rewrite <-Hcols in Hrows. rewrite Hrows, list_elem_of_fmap.
  intros (r' & -> & _). apply finish_polars.
  rewrite Hcols. right. apply elem_of_sorted, elem_of_app. right. left.
Qed.

(** X4. No cell of a matrix is null: a row has its method name, and under
    every other column either the check mark or the cross. *)
Theorem matrix_cells_marked results m r c :
  presence_matrix results = Ok m →
  r ∈ pl.rows m → c ∈ pl.columns m →
  is_Some (pl.value r c)
  ∧ (c ≠ "Method" →
     pl.value r c = Some ":white_check_mark:" ∨ pl.value r c = Some ":x:").
Proof.
  intros Hm Hr Hc.
  destruct (matrix_row _ _ Hm r Hr) as (k & _ & Hmethod & Hcell).
  destruct (decide (c = "Method")) as [->|Hne_method].
  { split; [by rewrite Hmethod|done]. }
  destruct (decide (c = "polars")) as [->|Hne_polars].
  { rewrite (matrix_row_polars _ _ _ Hm Hr). split; [done|]. by left. }
  rewrite (Hcell c) by done. split; [done|]. intros _.
  destruct (decide (occurs _ k c)); [by left|by right].
Qed.

Lemma matrix_cells_marked_witness :
  is_Some (pl.value (Sample.row_of Demo.DataFrame_matrix "join") "arrow")
  ∧ ("arrow" ≠ "Method" →
     pl.value (Sample.row_of Demo.DataFrame_matrix "join") "arrow"
     = Some ":white_check_mark:"
     ∨ pl.value (Sample.row_of Demo.DataFrame_matrix "join") "arrow" = Some ":x:").
Proof.
  apply (matrix_cells_marked (Demo.frames_of "DataFrame" Demo.DataFrame)
           Demo.DataFrame_matrix (Sample.row_of Demo.DataFrame_matrix "join") "arrow").
  - vm_compute. reflexivity.
  - apply (bool_decide_unpack _). vm_compute. exact I.
  - apply (bool_decide_unpack _). vm_compute. exact I.
Defined.

(** X5. A matrix is built only from row-sets in which the canonical
    participant ["narwhals"] occurs, and it never shows that participant:
    there is no such column, and no row has a cell for it. *)
Theorem canonical_column_dropped results m :
  presence_matrix results = Ok m →
  participant results "narwhals"
  ∧ ("narwhals" ∉ pl.columns m)
  ∧ ∀ r, r ∈ pl.rows m → pl.value r "narwhals" = None.
Proof.
  intros Hm.
  assert ("narwhals" ∉ pl.columns m) as Hnot.
  { rewrite (matrix_columns _ _ _ Hm). by intros [?|[?|[? _]]]. }
  split_and!; [|done|intros r Hr; by eapply matrix_row_absent].
  destruct (presence_matrix_Ok _ _ Hm) as (long & piv & Hlong & Hpiv & Hnw & _).
  destruct (pivot_columns_participants _ _ _ Hlong Hpiv)
    as (labels & Hlabels & _ & Hpart).
  apply Hpart. rewrite Hlabels in Hnw.
  by apply elem_of_cons in Hnw as [?|?].
Qed.

Lemma canonical_column_dropped_witness :
  participant (Demo.frames_of "DataFrame" Demo.DataFrame) "narwhals"
  ∧ ("narwhals" ∉ pl.columns Demo.DataFrame_matrix)
  ∧ ∀ r, r ∈ pl.rows Demo.DataFrame_matrix → pl.value r "narwhals" = None.
Proof.
  apply (canonical_column_dropped (Demo.frames_of "DataFrame" Demo.DataFrame)
           Demo.DataFrame_matrix).
  vm_compute. reflexivity.
Defined.

Section class_matrix.
Context (env : packages) (module_name nw_class_name : string) (nw_class : object).
Context (frames : list pl.DataFrame) (m : pl.DataFrame).
Hypothesis Hframes : class_frames env module_name nw_class_name nw_class = Ok frames.

Lemma class_frames_rows df r :
  df ∈ frames → r ∈ pl.rows df →
  ∃ b M, pl.value r "Backend" = Some b ∧ pl.value r "Method" = Some M
         ∧ (b = "narwhals" ∨ ∃ backend, backend ∈ BACKENDS ∧ b = name backend).
Proof.
  intros Hdf Hr.
  apply (class_frames_Ok _ _ _ _ _ Hframes) in Hdf
    as [->|(backend & ms & Hb & _ & ->)]; simpl in Hr;
    apply list_elem_of_fmap in Hr as (M & -> & _); unfold pl.value;
    rewrite lookup_insert_eq, lookup_insert_ne, lookup_singleton_eq by done;
    eauto 10.
Qed.

Lemma class_frames_occurs_backend backend methods_ M :
  backend ∈ BACKENDS →
  parse_module env module_name (module backend) nw_class_name = Ok methods_ →
  occurs (mjoin (pl.rows <$> frames)) (Some M) (name backend) ↔ M ∈ methods_.
Proof.
  intros Hb Hms. rewrite (occurs_class_frames _ _ _ _ _ Hframes). split.
  - intros [(Hname & _)|(b' & ms' & M' & Hb' & Hms' & Hname & HM' & [= ->])].
    + by apply backend_names in Hb as (? & _).
    + apply backend_names_inj in Hname as ->; [|done..]. congruence.
  - intros HM. right. exists backend, methods_, M. eauto.
Qed.
End class_matrix.

(** X6. In the matrix of a class, the cell of a method under a backend
    column is the check mark if the backend's resolver returned the method
    and the cross if it did not. *)
Theorem class_matrix_cell
    env module_name nw_class_name nw_class frames m backend methods_ r M :
  class_frames env module_name nw_class_name nw_class = Ok frames →
  presence_matrix frames = Ok m →
  backend ∈ BACKENDS →
  parse_module env module_name (module backend) nw_class_name = Ok methods_ →
  name backend ∈ pl.columns m →
  r ∈ pl.rows m → pl.value r "Method" = Some M →
  pl.value r (name backend)
  = Some (if decide (M ∈ methods_) then ":white_check_mark:" else ":x:").
Proof.
  intros Hframes Hm Hb Hms Hcol Hr HM.
  destruct (matrix_row _ _ Hm r Hr) as (k & Hk & Hmethod & Hcell).
  pose proof (backend_names _ Hb) as (Hnw & Hpolars & Hne_method).
  apply (occurs_class_frames _ _ _ _ _ Hframes) in Hk
    as [(_ & M' & _ & ->)|(b' & _ & _ & Hb' & _ & Hname & _)];
    [|by apply backend_names in Hb' as (? & _)].
  rewrite Hmethod in HM. injection HM as ->.
  rewrite Hcell by done. f_equal. apply decide_ext.
  by apply (class_frames_occurs_backend _ _ _ _ _ Hframes).
Qed.

Lemma class_matrix_cell_witness :
  pl.value (Sample.row_of Demo.DataFrame_matrix "join") "arrow"
  = Some (if decide ("join" ∈ ["select"; "to_arrow"; "to_pandas"; "pipe";
                               "implementation"; "to_native"])
          then ":white_check_mark:" else ":x:").
Proof.
  apply (class_matrix_cell Demo.env "dataframe" "DataFrame" Demo.DataFrame
           (Demo.frames_of "DataFrame" Demo.DataFrame) Demo.DataFrame_matrix
           (mkBackend "arrow" "_arrow" EAGER)).
  - vm_compute. reflexivity.
  - vm_compute. reflexivity.
  - apply (bool_decide_unpack _). vm_compute. exact I.
  - vm_compute. reflexivity.
  - apply (bool_decide_unpack _). vm_compute. exact I.
  - apply (bool_decide_unpack _). vm_compute. exact I.
  - vm_compute. reflexivity.
Defined.

(** X7. The matrix of a class has a column for a backend exactly when the
    backend's resolver returned at least one method, that is when the
    backend's module exists and holds a matching class. *)
Theorem class_matrix_backend_column
    env module_name nw_class_name nw_class frames m backend methods_ :
  class_frames env module_name nw_class_name nw_class = Ok frames →
  presence_matrix frames = Ok m →
  backend ∈ BACKENDS →
  parse_module env module_name (module backend) nw_class_name = Ok methods_ →
  (name backend ∈ pl.columns m ↔ methods_ ≠ [])
  ∧ (methods_ ≠ []
     ↔ ∃ mod_ n c,
         env !! ("narwhals." +:+ module backend +:+ "." +:+ module_name) = Some mod_
         ∧ mod_dir mod_ !! n = Some c
         ∧ class_matches nw_class_name c = true).
Proof.
  intros Hframes Hm Hb Hms.
  pose proof (backend_names _ Hb) as (Hnw & Hpolars & Hne_method). split.
  - rewrite (matrix_columns _ _ _ Hm). split.
    + intros [?|[?|[_ (df & r & Hdf & Hr & Hlabel)]]]; [done..|].
      apply (class_frames_Ok _ _ _ _ _ Hframes) in Hdf
        as [->|(b' & ms & Hb' & Hms' & ->)]; simpl in Hr;
        apply list_elem_of_fmap in Hr as (M & -> & HM);
        unfold pl.value in Hlabel; rewrite lookup_insert_eq in Hlabel;
        simpl in Hlabel; [done|].
      apply backend_names_inj in Hlabel as ->; [|done..].
      intros ->. rewrite Hms in Hms'. injection Hms' as <-.
      by apply elem_of_nil in HM.
    + intros Hne. right. right. split; [done|].
      destruct methods_ as [|M ms]; [done|].
      exists (pl.from_dict (name backend) (M :: ms)). eexists.
      split; [apply (class_frames_Ok _ _ _ _ _ Hframes); right; eauto|].
      split; [simpl; left|].
      unfold pl.value. by rewrite lookup_insert_eq.
  - destruct (env !! ("narwhals." +:+ module backend +:+ "." +:+ module_name))
      as [mod_|] eqn:Hmod.
    + destruct (getmembers (mod_dir mod_) (class_matches nw_class_name))
        as [|[n0 c0] rest] eqn:Hmem.
      * rewrite (parse_module_no_class _ _ _ _ _ Hmod Hmem) in Hms.
        injection Hms as <-. split; [done|].
        intros (mod' & n & c & [= <-] & Hn & Hc).
        rewrite getmembers_nil in Hmem. rewrite (Hmem _ _ Hn) in Hc. done.
      * assert ((n0, c0) ∈ getmembers (mod_dir mod_) (class_matches nw_class_name))
          as [Hn0 Hc0]%elem_of_getmembers by (rewrite Hmem; left).
        rewrite (parse_module_class _ _ _ _ _ _ _ Hmod Hmem) in Hms.
        injection Hms as <-. split; [eauto 10|]. intros _.
        intros Hnil. by apply app_eq_nil in Hnil as [_ Hnil].
    + rewrite (parse_module_no_module _ _ _ _ Hmod) in Hms.
      injection Hms as <-. split; [done|]. by intros (? & ? & ? & ? & _).
Qed.

Lemma class_matrix_backend_column_witness :
  ("duckdb" ∈ pl.columns Demo.DataFrame_matrix ↔ ([] : list string) ≠ [])
  ∧ (([] : list string) ≠ []
     ↔ ∃ mod_ n c,
         Demo.env !! ("narwhals." +:+ "_duckdb" +:+ "." +:+ "dataframe") = Some mod_
         ∧ mod_dir mod_ !! n = Some c
         ∧ class_matches "DataFrame" c = true).
Proof.
  apply (class_matrix_backend_column Demo.env "dataframe" "DataFrame" Demo.DataFrame
           (Demo.frames_of "DataFrame" Demo.DataFrame) Demo.DataFrame_matrix
           (mkBackend "duckdb" "_duckdb" LAZY)).
  - vm_compute. reflexivity.
  - vm_compute. reflexivity.
  - apply (bool_decide_unpack _). vm_compute. exact I.
  - vm_compute. reflexivity.
Defined.

(** X8. The rows of the matrix of a class are the canonical methods of the
    class, each once and in the order of the canonical enumerator, however
    often the row-sets list a method. *)
Theorem class_matrix_method_names
    env module_name nw_class_name nw_class frames m :
  class_frames env module_name nw_class_name nw_class = Ok frames →
  presence_matrix frames = Ok m →
  method_names m = Some <$> get_class_methods nw_class.
Proof.
  intros Hframes Hm.
  assert (∀ df r, df ∈ frames → r ∈ pl.rows df → is_Some (pl.value r "Method"))
    as Hnonnull.
  { intros df r Hdf Hr.
    destruct (class_frames_rows _ _ _ _ _ Hframes df r Hdf Hr)
      as (b & M & _ & -> & _). eauto. }
  pose proof (matrix_method_names_NoDup _ _ Hnonnull Hm) as Hnodup.
  destruct (cells_sorted (method_names m)) as (names & Hnames & Hsorted).
  { unfold method_names. rewrite Forall_fmap. apply Forall_forall.
    intros r Hr. destruct (matrix_row _ _ Hm r Hr) as (k & _ & Hmethod & _).
    simpl. by rewrite Hmethod. }
  { unfold method_names.
    eapply (StronglySorted_fmap _ (pl.by_column "Method") pl.cell_le);
      [|by apply matrix_rows_sorted with (results := frames)].
    by intros r1 r2 Hle. }
  rewrite Hnames. f_equal.
  destruct (get_class_methods_sorted nw_class) as [Hcanon_sorted Hcanon_nodup].
  apply (StronglySorted_unique String.le); [done..|].
  apply NoDup_Permutation; [|done|].
  - rewrite Hnames in Hnodup. by apply NoDup_fmap_1 in Hnodup.
  - intros M. rewrite <-(class_matrix_rows _ _ _ _ _ _ M Hframes Hm), Hnames.
    split; [apply list_elem_of_fmap_2|].
    intros (M' & [= ->] & HM')%list_elem_of_fmap. done.
Qed.

Lemma class_matrix_method_names_witness :
  method_names Demo.DataFrame_matrix = Some <$> get_class_methods Demo.DataFrame.
Proof.
  apply (class_matrix_method_names Demo.env "dataframe" "DataFrame" Demo.DataFrame
           (Demo.frames_of "DataFrame" Demo.DataFrame) Demo.DataFrame_matrix).
  - vm_compute. reflexivity.
  - vm_compute. reflexivity.
Defined.

(** ** When the builder returns *)

Lemma pivot_succeeds on index values df :
  on ∈ pl.columns df → index ∈ pl.columns df → values ∈ pl.columns df →
  NoDup (index :: (pl.label <$> pl.unique ((λ r, pl.value r on) <$> pl.rows df))) →
  ∃ out, pl.pivot on index values df = Ok out.
Proof.
  intros Hon Hindex Hvalues Hnodup. unfold pl.pivot.
  rewrite decide_True by (by repeat constructor).
  rewrite decide_True by done. eauto.
Qed.

Lemma select_succeeds names df :
  Forall (λ c, c ∈ pl.columns df) names → NoDup names →
  ∃ out, pl.select names df = Ok out.
Proof.
  intros Hall Hnodup. unfold pl.select.
  rewrite decide_True by done. rewrite decide_True by done. eauto.
Qed.

(** The data type of a column in a row-set of the script. *)
Lemma dtype_Utf8 df c r :
  r ∈ pl.rows df → is_Some (pl.value r c) → pl.dtype df c = pl.Utf8.
Proof.
  intros Hr Hsome. unfold pl.dtype. rewrite decide_True; [done|].
  apply Exists_exists. eauto.
Qed.

Lemma dtype_Null df c : pl.rows df = [] → pl.dtype df c = pl.Null.
Proof.
  intros Hnil. unfold pl.dtype. rewrite Hnil.
  rewrite decide_False; [done|]. by intros ?%Exists_nil.
Qed.

(** A first frame that holds strings under every column takes any frame of
    the same columns. *)
Lemma concat_succeeds df rest :
  Forall (λ d, pl.columns d = pl.columns df) rest →
  Forall (λ c, pl.dtype df c = pl.Utf8) (pl.columns df) →
  ∃ long, pl.concat (df :: rest) = Ok long ∧ pl.columns long = pl.columns df.
Proof.
  intros Hcolumns Htypes. unfold pl.concat. rewrite decide_True; [eauto|].
  eapply Forall_impl; [exact Hcolumns|]. intros d Hd. split; [done|].
  eapply Forall_impl; [exact Htypes|]. intros c Hc. simpl. rewrite Hc.
  destruct (pl.dtype d c); auto.
Qed.

(** A first frame without rows takes no frame that holds a string. *)
Lemma concat_fails df rest d r c :
  pl.rows df = [] → d ∈ rest → c ∈ pl.columns df →
  r ∈ pl.rows d → is_Some (pl.value r c) →
  pl.concat (df :: rest) = Raise SchemaError.
Proof.
  intros Hnil Hd Hc Hr Hsome. unfold pl.concat. rewrite decide_False; [done|].
  intros Hall. rewrite Forall_forall in Hall.
  destruct (Hall d Hd) as [_ Htypes]. rewrite Forall_forall in Htypes.
  specialize (Htypes c Hc).
  rewrite (dtype_Utf8 d c r), (dtype_Null df c) in Htypes by done.
  by destruct Htypes.
Qed.

(** The builder returns on row-sets of the two columns of the script of
    which the first has a row, in which the canonical participant occurs, no
    cell is null and no participant is called like the method column or the
    reference backend. *)
Lemma presence_matrix_succeeds df rest :
  Forall (λ d, pl.columns d = ["Backend"; "Method"]) (df :: rest) →
  (∀ d r, d ∈ df :: rest → r ∈ pl.rows d →
          ∃ b M, pl.value r "Backend" = Some b ∧ pl.value r "Method" = Some M
                 ∧ b ≠ "Method" ∧ b ≠ "polars") →
  pl.rows df ≠ [] →
  participant (df :: rest) "narwhals" →
  ∃ m, presence_matrix (df :: rest) = Ok m.
Proof.
  intros Hcolumns Hbackends Hrows Hnw.
  pose proof (Forall_inv Hcolumns) as Hdf.
  assert (∃ long, pl.concat (df :: rest) = Ok long
                  ∧ pl.columns long = pl.columns df) as (long & Hlong & Hlong_cols).
  { apply concat_succeeds.
    - apply Forall_inv_tail in Hcolumns.
      eapply Forall_impl; [exact Hcolumns|]. simpl. congruence.
    - destruct (pl.rows df) as [|r rows] eqn:Hr; [done|].
      destruct (Hbackends df r) as (b & M & Hb & HM & _); [left|rewrite Hr; left|].
      rewrite Hdf. repeat constructor.
      + apply (dtype_Utf8 df _ r); [rewrite Hr; left|by rewrite Hb].
      + apply (dtype_Utf8 df _ r); [rewrite Hr; left|by rewrite HM]. }
  rewrite Hdf in Hlong_cols.
  set (long' := pl.with_columns "supported" ":white_check_mark:" long).
  assert (pl.columns long' = ["Backend"; "Method"; "supported"]) as Hlong'_cols.
  { unfold long', pl.with_columns. simpl. by rewrite Hlong_cols. }
  set (ons := pl.unique ((λ r, pl.value r "Backend") <$> pl.rows long')).
  assert (∀ o, o ∈ ons → ∃ b, o = Some b ∧ b ≠ "Method" ∧ b ≠ "polars") as Hons.
  { intros o. unfold ons, long'. simpl.
    rewrite elem_of_unique, <-list_fmap_compose, list_elem_of_fmap.
    intros (r & -> & Hr). simpl. rewrite value_with_columns_ne by done.
    apply concat_Ok in Hlong as [_ Hlong_rows]. rewrite Hlong_rows in Hr.
    apply list_elem_of_join in Hr as (l & Hr & Hl).
    apply list_elem_of_fmap in Hl as (df' & -> & Hdf').
    destruct (Hbackends _ _ Hdf' Hr) as (b & M & Hb & _ & ? & ?). eauto. }
  assert (NoDup ("Method" :: (pl.label <$> ons))) as Hlabels.
  { apply NoDup_cons. split.
    - intros (o & Ho & [b (-> & Hb & _)]%Hons)%list_elem_of_fmap. done.
    - apply NoDup_fmap_2_strong; [|apply NoDup_unique].
      intros o1 o2 [b1 (-> & _)]%Hons [b2 (-> & _)]%Hons. simpl. congruence. }
  destruct (pivot_succeeds "Backend" "Method" "supported" long') as [piv Hpiv];
    [rewrite Hlong'_cols; apply (bool_decide_unpack _); by vm_compute..|done|].
  destruct (pivot_columns_participants _ _ _ Hlong Hpiv)
    as (labels & Hpiv_cols & Hpiv_nodup & Hpart).
  assert (∀ c, c ∈ labels → c ≠ "Method" ∧ c ≠ "polars") as Hlabel.
  { intros c (df' & r & Hdf' & Hr & <-)%Hpart.
    destruct (Hbackends _ _ Hdf' Hr) as (b & M & -> & _ & ? & ?). done. }
  apply NoDup_cons in Hpiv_nodup as [_ Hlabels_nodup].
  assert ("narwhals" ∈ pl.columns piv) as Hin.
  { rewrite Hpiv_cols. right. by apply Hpart. }
  set (cols := filter (λ c, c ≠ "narwhals") (pl.columns piv)).
  assert ("Method" ∈ cols) as Hmethod.
  { apply list_elem_of_filter. split; [done|]. rewrite Hpiv_cols. left. }
  assert (NoDup cols ∧ "polars" ∉ cols) as [Hcols_nodup Hcols_polars].
  { unfold cols. rewrite Hpiv_cols. split.
    - apply NoDup_filter, NoDup_cons. split; [|done].
      by intros [? _]%Hlabel.
    - intros [_ [?|[_ ?]%Hlabel]%elem_of_cons]%list_elem_of_filter; done. }
  set (names := "Method" :: sorted (filter (λ c, c ≠ "Method") cols ++ ["polars"])).
  assert (NoDup names) as Hnames.
  { unfold names. apply NoDup_cons. split.
    - rewrite elem_of_sorted, elem_of_app, list_elem_of_filter.
      rewrite list_elem_of_singleton. by intros [[? _]|?].
    - unfold sorted. rewrite merge_sort_Permutation. apply NoDup_app.
      split_and!; [by apply NoDup_filter| |apply NoDup_singleton].
      intros c [_ Hc]%list_elem_of_filter ->%list_elem_of_singleton. done. }
  eexists. unfold presence_matrix.
  apply bind_Ok. exists long. split; [done|].
  apply bind_Ok. exists piv. split; [done|].
  apply bind_Ok. eexists. split.
  { unfold pl.filter_is_not_null. by rewrite decide_True. }
  apply bind_Ok. eexists. split.
  { unfold pl.drop. simpl. by rewrite decide_True. }
  apply bind_Ok. eexists. split.
  { unfold pl.sort. simpl. by rewrite decide_True. }
  simpl. fold cols. fold names.
  unfold pl.select, pl.with_columns. simpl. fold cols.
  rewrite (decide_False (P := "polars" ∈ cols)) by done.
  rewrite decide_True; [by rewrite decide_True|].
  unfold names. apply Forall_cons. split.
  - apply elem_of_app. by left.
  - apply Forall_forall. intros c.
    rewrite elem_of_sorted, !elem_of_app, list_elem_of_filter. tauto.
Qed.

(** The row-sets of a class start with the canonical one. *)
Lemma class_frames_head env module_name nw_class_name nw_class frames :
  class_frames env module_name nw_class_name nw_class = Ok frames →
  ∃ rest, frames = pl.from_dict "narwhals" (get_class_methods nw_class) :: rest.
Proof.
  unfold class_frames. intros (tail & _ & [= <-])%bind_Ok. eauto.
Qed.

(** X9. The matrix of a class can be built exactly when the class has a
    public member.  For a class without one the builder raises; when some
    backend has a class for it, the exception is the [SchemaError] of
    [pl.concat], which finds the rows of the backend under the empty
    canonical row-set. *)
Theorem class_matrix_built_iff_public
    env module_name nw_class_name nw_class frames :
  class_frames env module_name nw_class_name nw_class = Ok frames →
  ((∃ m, presence_matrix frames = Ok m) ↔ get_class_methods nw_class ≠ [])
  ∧ (get_class_methods nw_class = [] →
     (∃ backend methods_,
        backend ∈ BACKENDS
        ∧ parse_module env module_name (module backend) nw_class_name = Ok methods_
        ∧ methods_ ≠ []) →
     presence_matrix frames = Raise SchemaError).
Proof.
  intros Hframes.
  assert (participant frames "narwhals" ↔ get_class_methods nw_class ≠ [])
    as Hcanonical.
  { split.
    - intros (df & r & Hdf & Hr & Hlabel) Hnil.
      apply (class_frames_Ok _ _ _ _ _ Hframes) in Hdf
        as [->|(b & ms & Hb & _ & ->)]; simpl in Hr.
      + rewrite Hnil in Hr. by apply elem_of_nil in Hr.
      + apply list_elem_of_fmap in Hr as (M & -> & _).
        unfold pl.value in Hlabel. rewrite lookup_insert_eq in Hlabel.
        simpl in Hlabel. by apply backend_names in Hb as (? & _).
    - intros Hne. destruct (get_class_methods nw_class) as [|M ms] eqn:Hgcm; [done|].
      exists (pl.from_dict "narwhals" (M :: ms)). eexists.
      split; [apply (class_frames_Ok _ _ _ _ _ Hframes); left; by rewrite Hgcm|].
      split; [simpl; left|]. unfold pl.value. by rewrite lookup_insert_eq. }
  destruct (class_frames_head _ _ _ _ _ Hframes) as [rest Hhead].
  split.
  - rewrite <-Hcanonical. split.
    + intros [m Hm].
      destruct (presence_matrix_Ok _ _ Hm) as (long & piv & Hlong & Hpiv & Hnw & _).
      destruct (pivot_columns_participants _ _ _ Hlong Hpiv)
        as (labels & Hlabels & _ & Hpart).
      apply Hpart. rewrite Hlabels in Hnw.
      by apply elem_of_cons in Hnw as [?|?].
    + intros Hnw. pose proof Hnw as Hpublic%Hcanonical.
      rewrite Hhead in Hnw |- *. apply presence_matrix_succeeds; [| | |done].
      * apply Forall_forall. intros df Hdf. rewrite <-Hhead in Hdf.
        by apply (class_frames_Ok _ _ _ _ _ Hframes) in Hdf
          as [->|(b & ms & _ & _ & ->)].
      * intros df r Hdf Hr. rewrite <-Hhead in Hdf.
        destruct (class_frames_rows _ _ _ _ _ Hframes df r Hdf Hr)
          as (b & M & Hb & HM & [->|(backend & Hbackend & ->)]).
        -- by exists "narwhals", M.
        -- exists (name backend), M.
           by apply backend_names in Hbackend as (_ & ? & ?).
      * simpl. by destruct (get_class_methods nw_class).
  - intros Hnil (backend & methods_ & Hb & Hms & Hne).
    destruct methods_ as [|M ms]; [done|].
    assert (pl.from_dict (name backend) (M :: ms) ∈ rest) as Hin.
    { assert (pl.from_dict (name backend) (M :: ms) ∈ frames) as Hin
        by (apply (class_frames_Ok _ _ _ _ _ Hframes); right; eauto).
      rewrite Hhead in Hin. apply elem_of_cons in Hin as [Heq|Hin]; [|done].
      rewrite Hnil in Heq. done. }
    unfold presence_matrix. rewrite Hhead.
    rewrite (concat_fails _ rest (pl.from_dict (name backend) (M :: ms))
               {[ "Backend" := Some (name backend); "Method" := Some M ]} "Method");
      [done|by rewrite Hnil|done|simpl; right; left|simpl; left|].
    unfold pl.value. rewrite lookup_insert_ne, lookup_singleton_eq by done. eauto.
Qed.

Lemma class_matrix_built_iff_public_witness :
  let frames := Sample.frames_in Sample.env_private "series"
                  ("Private", Sample.Private) in
  ((∃ m, presence_matrix frames = Ok m) ↔ get_class_methods Sample.Private ≠ [])
  ∧ (get_class_methods Sample.Private = [] →
     (∃ backend methods_,
        backend ∈ BACKENDS
        ∧ parse_module Sample.env_private "series" (module backend) "Private"
          = Ok methods_
        ∧ methods_ ≠ []) →
     presence_matrix frames = Raise SchemaError).
Proof.
  apply (class_matrix_built_iff_public Sample.env_private "series" "Private"
           Sample.Private).
  vm_compute. reflexivity.
Defined.

(** ** What the script writes *)

(** X10. A call of the renderer that raises has written nothing: the matrix
    is built and the template is read and rendered before the destination is
    opened.  With the template missing it raises [FileNotFoundError], once
    the matrix has been built. *)
Theorem render_failure_writes_nothing
    (str_table : pl.DataFrame → string)
    (Template_render : string → string → string → result string)
    (results : list pl.DataFrame) (title output_filename : string) (w : World) :
  (∀ w' e,
     render_table_and_write_to_output str_table Template_render
       results title output_filename w = (w', Raise e) →
     w' = w)
  ∧ (files w !! TEMPLATE_PATH = None →
     ∀ m, presence_matrix results = Ok m →
          render_table_and_write_to_output str_table Template_render
            results title output_filename w = (w, Raise FileNotFoundError)).
Proof.
  unfold render_table_and_write_to_output, mbind, IO_bind, lift, read_text.
  split.
  - intros w' e. destruct (presence_matrix results) as [m|e']; [|by intros [= -> _]].
    destruct (files w !! TEMPLATE_PATH) as [stream|]; [|by intros [= -> _]].
    destruct (Template_render stream (str_table m) title) as [text|e'];
      [done|by intros [= -> _]].
  - intros Hnone m ->. by rewrite Hnone.
Qed.

Lemma render_failure_writes_nothing_witness :
  render_table_and_write_to_output Demo.str_table Demo.Template_render
    (Demo.frames_of "DataFrame" Demo.DataFrame) "DataFrame" "dataframe"
    Sample.bare_world
  = (Sample.bare_world, Raise FileNotFoundError).
Proof.
  apply (proj2 (render_failure_writes_nothing Demo.str_table Demo.Template_render
                  (Demo.frames_of "DataFrame" Demo.DataFrame)
                  "DataFrame" "dataframe" Sample.bare_world))
    with (m := Demo.DataFrame_matrix).
  - vm_compute. reflexivity.
  - vm_compute. reflexivity.
Defined.

Section renders.
Context (P : Document → Prop).

Lemma renders_ret {A} (a : A) : renders P (mret a).
Proof.
  intros w w' r [= <- <-]. exists []. by rewrite write_all_nil.
Qed.

Lemma renders_lift {A} (x : result A) : renders P (lift x).
Proof.
  intros w w' r [= <- <-]. exists []. by rewrite write_all_nil.
Qed.

Lemma renders_bind {A B} (act : IO A) (k : A → IO B) :
  renders P act → (∀ a, renders P (k a)) → renders P (act ≫= k).
Proof.
  intros Hact Hk w w' r. unfold mbind, IO_bind.
  destruct (act w) as [w1 [a|e]] eqn:Hw1;
    destruct (Hact _ _ _ Hw1) as (docs1 & -> & Hdocs1).
  - intros Hka. destruct (Hk a _ _ _ Hka) as (docs2 & -> & Hdocs2).
    exists (docs1 ++ docs2). by rewrite write_all_app, Forall_app.
  - intros [= <- <-]. eauto.
Qed.

Lemma renders_for {A S} (l : list A) (body : S → A → IO S) (s : S) :
  (∀ s x, x ∈ l → renders P (body s x)) → renders P (for_ l body s).
Proof.
  revert s. induction l as [|x l IH]; intros s Hbody; simpl.
  - apply renders_ret.
  - apply renders_bind; [apply Hbody; left|].
    intros s'. apply IH. intros s'' x' Hx'. apply Hbody. by right.
Qed.

Lemma renders_render str_table Template_render results title output_filename :
  (∀ m text, P (mkDocument (destination output_filename) title m text)) →
  renders P (render_table_and_write_to_output str_table Template_render
               results title output_filename).
Proof.
  intros HP w w' r.
  unfold render_table_and_write_to_output, mbind, IO_bind, lift, read_text.
  destruct (presence_matrix results) as [m|e];
    [|intros [= <- <-]; exists []; by rewrite write_all_nil].
  destruct (files w !! TEMPLATE_PATH) as [stream|];
    [|intros [= <- <-]; exists []; by rewrite write_all_nil].
  destruct (Template_render stream (str_table m) title) as [text|e];
    [|intros [= <- <-]; exists []; by rewrite write_all_nil].
  intros [= <- <-].
  exists [mkDocument (destination output_filename) title m text].
  split; [reflexivity|]. constructor; [apply HP|constructor].
Qed.

Lemma renders_class_step str_table Template_render env module_name vars entry :
  (∀ m text, P (mkDocument (destination "dataframe") "DataFrame" m text)) →
  (∀ m text, P (mkDocument (destination "lazyframe") "LazyFrame" m text)) →
  renders P (class_step str_table Template_render env module_name vars entry).
Proof.
  intros Hdf Hlf. destruct vars as [results processed_classes].
  destruct entry as [nw_class_name nw_class]. unfold class_step.
  destruct (decide (nw_class_name ∈ EXCLUDE_CLASSES)); [apply renders_ret|].
  apply renders_bind; [apply renders_lift|]. intros frames.
  destruct (decide (nw_class_name ∈ ({[ "DataFrame"; "LazyFrame" ]} : gset string)))
    as [Hframe|]; [|apply renders_ret].
  apply renders_bind; [|intros; apply renders_ret].
  apply renders_render. intros m text.
  apply elem_of_union in Hframe
    as [->%elem_of_singleton| ->%elem_of_singleton]; [apply Hdf|apply Hlf].
Qed.
End renders.

(** X11. Whatever its outcome, working on a module renders no other
    documents than the one of [DataFrame] in [dataframe.md], the one of
    [LazyFrame] in [lazyframe.md], and the aggregate, titled after the
    module, in the file named after the module. *)
Theorem process_module_documents
    (str_table : pl.DataFrame → string)
    (Template_render : string → string → string → result string)
    (env : packages) (module_name : string) (w w' : World) (r : result unit) :
  process_module str_table Template_render env module_name w = (w', r) →
  ∃ docs, w' = write_all docs w ∧ Forall (module_document module_name) docs.
Proof.
  revert w w' r. change (renders (module_document module_name)
    (process_module str_table Template_render env module_name)).
  unfold process_module.
  apply renders_bind; [apply renders_lift|]. intros narwhals_module_.
  apply renders_bind.
  - apply renders_for. intros vars entry _.
    apply renders_class_step; intros m text; [by left|by right; left].
  - intros [results processed_classes].
    destruct (decide (processed_classes = {[ "DataFrame"; "LazyFrame" ]}));
      [apply renders_ret|].
    apply renders_bind; [|intros; apply renders_ret].
    apply renders_render. intros m text. by right; right.
Qed.

Lemma process_module_documents_witness :
  ∃ docs,
    (process_module Demo.str_table Demo.Template_render Demo.env "series"
       Demo.world).1 = write_all docs Demo.world
    ∧ Forall (module_document "series") docs.
Proof.
  apply (process_module_documents Demo.str_table Demo.Template_render Demo.env
           "series" Demo.world _
           (process_module Demo.str_table Demo.Template_render Demo.env "series"
              Demo.world).2).
  vm_compute. reflexivity.
Defined.

Lemma write_all_other docs w p :
  Forall (λ d, doc_file d ≠ p) docs →
  files (write_all docs w) !! p = files w !! p.
Proof.
  unfold write_all. simpl. generalize (files w).
  induction docs as [|d docs IH]; intros fs Hdocs; [done|].
  apply Forall_cons in Hdocs as [Hd Hdocs]. simpl.
  rewrite IH by done. by rewrite lookup_insert_ne.
Qed.

(** X12. Whatever its outcome, the script changes no file other than the
    documents of the two frame classes and of the modules of the registry,
    all under the destination directory; every other file, the template
    among them, is left as it was. *)
Theorem builder_touches_only_documents
    (str_table : pl.DataFrame → string)
    (Template_render : string → string → string → result string)
    (env : packages) (w w' : World) (r : result unit) (p : string) :
  get_backend_completeness_table str_table Template_render env w = (w', r) →
  p ∉ output_files →
  files w' !! p = files w !! p.
Proof.
  intros Hrun Hp.
  assert (renders (λ d, doc_file d ∈ output_files)
            (get_backend_completeness_table str_table Template_render env))
    as Hrenders.
  { unfold get_backend_completeness_table, output_files.
    rewrite !fmap_cons. apply renders_for.
    intros [] module_name Hmodule. unfold process_module.
    apply renders_bind; [apply renders_lift|]. intros narwhals_module_.
    apply renders_bind.
    - apply renders_for. intros vars entry _.
      apply renders_class_step; intros m text; cbn [doc_file];
        [left|right; left].
    - intros [results processed_classes].
      destruct (decide (processed_classes = {[ "DataFrame"; "LazyFrame" ]}));
        [apply renders_ret|].
      apply renders_bind; [|intros; apply renders_ret].
      apply renders_render. intros m text. cbn [doc_file].
      do 2 right. by apply list_elem_of_fmap_2. }
  destruct (Hrenders _ _ _ Hrun) as (docs & -> & Hdocs).
  apply write_all_other. eapply Forall_impl; [exact Hdocs|].
  intros d Hd Heq. apply Hp. by rewrite <-Heq.
Qed.

Lemma builder_touches_only_documents_witness :
  files (get_backend_completeness_table Demo.str_table Demo.Template_render
           Demo.env Demo.stale_world).1 !! TEMPLATE_PATH
  = files Demo.stale_world !! TEMPLATE_PATH.
Proof.
  apply (builder_touches_only_documents Demo.str_table Demo.Template_render
           Demo.env Demo.stale_world _
           (get_backend_completeness_table Demo.str_table Demo.Template_render
              Demo.env Demo.stale_world).2).
  - vm_compute. reflexivity.
  - apply (bool_decide_unpack _). vm_compute. exact I.
Defined.

(** ** When the script fails *)

Section failures.
Context (str_table : pl.DataFrame → string).
Context (Template_render : string → string → string → result string).
Context (env : packages).

(** A loop over excluded classes only does nothing. *)
Lemma class_loop_excluded module_name l vars w :
  filter (λ entry : string * object, entry.1 ∉ EXCLUDE_CLASSES) l = [] →
  for_ l (class_step str_table Template_render env module_name) vars w
  = (w, Ok vars).
Proof.
  induction l as [|[nw_class_name nw_class] l IH]; [done|].
  rewrite filter_cons. simpl. destruct vars as [results processed_classes].
  destruct (decide (nw_class_name ∉ EXCLUDE_CLASSES)) as [?|Hexcl]; [done|].
  intros Hrest. apply dec_stable in Hexcl.
  unfold mbind, IO_bind, class_step. rewrite decide_True by done.
  simpl. by apply IH.
Qed.

Lemma class_step_without_template module_name entry results w :
  files w !! TEMPLATE_PATH = None →
  (∃ e, class_step str_table Template_render env module_name
          (results, ∅) entry w = (w, Raise e))
  ∨ (∃ results',
       class_step str_table Template_render env module_name
         (results, ∅) entry w = (w, Ok (results', ∅))).
Proof.
  intros Hnone. destruct entry as [nw_class_name nw_class]. unfold class_step.
  destruct (decide (nw_class_name ∈ EXCLUDE_CLASSES)) as [Hexcl|Hexcl];
    [right; by exists results|].
  unfold mbind at 1, IO_bind at 1, lift at 1.
  destruct (class_frames env module_name nw_class_name nw_class) as [frames|e];
    [|left; by exists e].
  destruct (decide (nw_class_name ∈ ({[ "DataFrame"; "LazyFrame" ]} : gset string)))
    as [Hframe|Hframe]; [|right; by eexists].
  left. unfold mbind at 1, IO_bind at 1.
  unfold render_table_and_write_to_output, mbind, IO_bind, lift, read_text.
  destruct (presence_matrix frames) as [m|e]; [by rewrite Hnone; eexists|].
  by exists e.
Qed.

(** Without the template, the loop over the classes of a module renders
    nothing: it raises, or it ends with no class marked as processed. *)
Lemma class_loop_without_template module_name l results w :
  files w !! TEMPLATE_PATH = None →
  (∃ e, for_ l (class_step str_table Template_render env module_name)
          (results, ∅) w = (w, Raise e))
  ∨ (∃ results',
       for_ l (class_step str_table Template_render env module_name)
         (results, ∅) w = (w, Ok (results', ∅))).
Proof.
  intros Hnone. revert results.
  induction l as [|entry l IH]; intros results; cbn [for_].
  { right. by exists results. }
  unfold mbind, IO_bind.
  destruct (class_step_without_template module_name entry results w Hnone)
    as [[e ->]|[results' ->]]; [by left; exists e|apply IH].
Qed.
End failures.

(** X13. A canonical module without a class of its own that is not excluded
    makes the script raise [ValueError] when it comes to the aggregate
    document, with nothing written for the module. *)
Theorem module_without_classes_raises
    (str_table : pl.DataFrame → string)
    (Template_render : string → string → string → result string)
    (env : packages) (module_name : string) (m : py_module) (w : World) :
  env !! ("narwhals." +:+ module_name) = Some m →
  module_classes m ("narwhals." +:+ module_name) = [] →
  process_module str_table Template_render env module_name w
  = (w, Raise ValueError).
Proof.
  intros Hm Hnone. unfold process_module, import_module. rewrite Hm.
  unfold mbind at 1, IO_bind at 1, lift at 1.
  unfold mbind at 1, IO_bind at 1.
  rewrite class_loop_excluded by done.
  rewrite decide_False; [done|].
  intros Heq. assert ("DataFrame" ∈ (∅ : gset string)) as Hin
    by (rewrite Heq; set_solver).
  by apply not_elem_of_empty in Hin.
Qed.

Lemma module_without_classes_raises_witness :
  process_module Demo.str_table Demo.Template_render Sample.env_excluded "expr"
    Demo.world
  = (Demo.world, Raise ValueError).
Proof.
  apply (module_without_classes_raises Demo.str_table Demo.Template_render
           Sample.env_excluded "expr"
           (PyModule {[ "Then" := Demo.class_ "Then" "narwhals.expr"
                                    [("otherwise", implemented)] ]})).
  - vm_compute. reflexivity.
  - vm_compute. reflexivity.
Defined.

(** X14. Without the template file the script raises and writes nothing,
    whatever the modules are. *)
Theorem missing_template_fatal
    (str_table : pl.DataFrame → string)
    (Template_render : string → string → string → result string)
    (env : packages) (w : World) :
  files w !! TEMPLATE_PATH = None →
  ∃ e, get_backend_completeness_table str_table Template_render env w
       = (w, Raise e).
Proof.
  intros Hnone. unfold get_backend_completeness_table, MODULES.
  cbn [for_]. unfold mbind at 1, IO_bind at 1.
  assert (∃ e, process_module str_table Template_render env "dataframe" w
               = (w, Raise e)) as [e ->]; [|by exists e].
  unfold process_module.
  unfold mbind at 1, IO_bind at 1, lift at 1.
  destruct (import_module env ("narwhals." +:+ "dataframe")) as [m|e];
    [|by exists e].
  unfold mbind at 1, IO_bind at 1.
  destruct (class_loop_without_template str_table Template_render env "dataframe"
              (getmembers (mod_dir m) (defined_in ("narwhals." +:+ "dataframe")))
              [] w Hnone) as [[e ->]|[results' ->]]; [by exists e|].
  rewrite decide_False.
  - unfold mbind at 1, IO_bind at 1.
    unfold render_table_and_write_to_output, mbind, IO_bind, lift, read_text.
    destruct (presence_matrix results') as [table|e]; [|by exists e].
    rewrite Hnone. by exists FileNotFoundError.
  - intros Heq. assert ("DataFrame" ∈ (∅ : gset string)) as Hin
      by (rewrite Heq; set_solver).
    by apply not_elem_of_empty in Hin.
Qed.

Lemma missing_template_fatal_witness :
  ∃ e, get_backend_completeness_table Demo.str_table Demo.Template_render
         Sample.env_full Sample.bare_world
       = (Sample.bare_world, Raise e).
Proof.
  apply (missing_template_fatal Demo.str_table Demo.Template_render
           Sample.env_full Sample.bare_world).
  vm_compute. reflexivity.
Defined.

Lemma for_Ok_each {A S} (l : list A) (body : S → A → IO S) s w w' s' x :
  for_ l body s w = (w', Ok s') → x ∈ l →
  ∃ s1 w1 s2 w2, body s1 x w1 = (w2, Ok s2).
Proof.
  revert s w. induction l as [|y l IH]; intros s w Hrun Hx.
  { by apply elem_of_nil in Hx. }
  simpl in Hrun. apply IO_bind_Ok in Hrun as (w1 & s1 & Hy & Hrest).
  apply elem_of_cons in Hx as [->|Hx]; [eauto 10|]. by eapply IH.
Qed.

(** X15. The script runs to the end only if every module of the registry
    exists in the canonical package and has a class of its own that is not
    excluded. *)
Theorem builder_success_needs_modules
    (str_table : pl.DataFrame → string)
    (Template_render : string → string → string → result string)
    (env : packages) (w w' : World) (module_name : string) :
  get_backend_completeness_table str_table Template_render env w = (w', Ok ()) →
  module_name ∈ MODULES →
  ∃ m, env !! ("narwhals." +:+ module_name) = Some m
       ∧ module_classes m ("narwhals." +:+ module_name) ≠ [].
Proof.
  intros Hrun Hmodule. unfold get_backend_completeness_table in Hrun.
  destruct (for_Ok_each _ _ _ _ _ _ _ Hrun Hmodule) as ([] & w1 & [] & w2 & Hstep).
  unfold process_module in Hstep.
  apply IO_bind_Ok in Hstep as (w3 & m & [Himport ->]%lift_Ok & Hstep).
  unfold import_module in Himport.
  destruct (env !! ("narwhals." +:+ module_name)) as [m'|]; [|done].
  injection Himport as ->. exists m. split; [done|]. intros Hnone.
  apply IO_bind_Ok in Hstep as (w4 & vars & Hloop & Hstep).
  unfold module_classes in Hnone.
  rewrite class_loop_excluded in Hloop by done. injection Hloop as <- <-.
  rewrite decide_False in Hstep.
  - by apply IO_bind_Ok in Hstep as (? & ? & ? & _).
  - intros Heq. assert ("DataFrame" ∈ (∅ : gset string)) as Hin
      by (rewrite Heq; set_solver).
    by apply not_elem_of_empty in Hin.
Qed.

Lemma builder_success_needs_modules_witness :
  ∃ m, Sample.env_full !! ("narwhals." +:+ "expr_str") = Some m
       ∧ module_classes m ("narwhals." +:+ "expr_str") ≠ [].
Proof.
  apply (builder_success_needs_modules Demo.str_table Demo.Template_render
           Sample.env_full Demo.world
           (get_backend_completeness_table Demo.str_table Demo.Template_render
              Sample.env_full Demo.world).1 "expr_str").
  - vm_compute. reflexivity.
  - apply (bool_decide_unpack _). vm_compute. exact I.
Defined.
